(** * Todo-Queue-CLI: the shared command logic, the [add] and the [prio] commands

    A shallow embedding of [todo/commands/base.py], [todo/commands/add.py]
    and [todo/commands/prio.py], the properties of the specification
    proved of it, and further properties of the code.

    Conventions of the embedding.
    - Python [str] values are Rocq [string]s (byte strings).  The string
      built-ins ([lower], [upper], [strip], [split], [rsplit], [int], the
      regular expression of [add.py]) are embedded for ASCII text: bytes
      from 128 up are carried along unchanged and are neither letters,
      digits nor spaces.
    - A task is the dictionary [{'done', 'title', 'priority'}] the commands
      read and build; ['done'] and ['priority'] may be absent (the code reads
      them with [dict.get]), ['title'] is always there (the code reads it
      with [todo['title']]); ['done'] is a boolean, the other two are
      strings.  The project document is the dictionary [{'name', 'todos'}],
      either key possibly absent.  A project file of another shape (other
      keys, other types of values) is outside the embedding.
    - [json.dump] with the options of [update_project] and [json.load] are
      embedded on the fragment of JSON these documents are written in:
      objects, arrays, strings, [true] and [false].
    - The process state is the record [world]: [sys.argv], the project file
      on disk (its bytes, or absent), the error that opening it for writing
      raises (if any), how often it was opened for writing, and the lines
      printed so far.  Colour escape sequences ([todo.utils.styles]) are
      left out of the printed lines.
    - Exceptions and [sys.exit] are results of the monad [M]. *)

From Stdlib Require Import ZArith NArith Ascii String List Lia Bool.
From Stdlib Require Import Decimal DecimalString DecimalNat.
From Stdlib Require Import Sorting.Sorted Sorting.Permutation.
From stdpp Require Import base list strings.

Local Open Scope string_scope.

#[local] Set Warnings "-register-all".

(** ** Python built-ins on text *)

Module Py.

Definition is_upper (c : ascii) : bool :=
  (65 <=? nat_of_ascii c)%nat && (nat_of_ascii c <=? 90)%nat.

Definition is_lower (c : ascii) : bool :=
  (97 <=? nat_of_ascii c)%nat && (nat_of_ascii c <=? 122)%nat.

Definition is_digit (c : ascii) : bool :=
  (48 <=? nat_of_ascii c)%nat && (nat_of_ascii c <=? 57)%nat.

Definition char_lower (c : ascii) : ascii :=
  if is_upper c then ascii_of_nat (nat_of_ascii c + 32) else c.

Definition char_upper (c : ascii) : ascii :=
  if is_lower c then ascii_of_nat (nat_of_ascii c - 32) else c.

(** [s.lower()] *)
Fixpoint lower (s : string) : string :=
  match s with
  | "" => ""
  | String c s' => String (char_lower c) (lower s')
  end.

(** [s.upper()] *)
Fixpoint upper (s : string) : string :=
  match s with
  | "" => ""
  | String c s' => String (char_upper c) (upper s')
  end.

(** [c.isspace()]: tab, line feed, vertical tab, form feed, carriage return,
    the four separators 28..31 and the space. *)
Definition isspace (c : ascii) : bool :=
  let n := nat_of_ascii c in
  ((9 <=? n)%nat && (n <=? 13)%nat) || ((28 <=? n)%nat && (n <=? 32)%nat).

(** The white space [int] skips around a literal of ASCII text: tab, line
    feed, vertical tab, form feed, carriage return and the space. *)
Definition isspace_c (c : ascii) : bool :=
  let n := nat_of_ascii c in
  ((9 <=? n)%nat && (n <=? 13)%nat) || (n =? 32)%nat.

(** [s] without its leading, its trailing, its leading and trailing
    characters that pass [space]. *)
Fixpoint lstrip_by (space : ascii -> bool) (s : string) : string :=
  match s with
  | "" => ""
  | String c s' => if space c then lstrip_by space s' else s
  end.

Definition rstrip_by (space : ascii -> bool) (s : string) : string :=
  String.rev (lstrip_by space (String.rev s)).

Definition strip_by (space : ascii -> bool) (s : string) : string :=
  rstrip_by space (lstrip_by space s).

(** [s.strip()] *)
Definition strip (s : string) : string := strip_by isspace s.

(** [s.split(sep)] for a one-character separator: never the empty list. *)
Fixpoint split (sep : ascii) (s : string) : list string :=
  match s with
  | "" => [""]
  | String c s' =>
      if Ascii.eqb c sep then "" :: split sep s'
      else match split sep s' with
           | piece :: rest => String c piece :: rest
           | [] => [String c ""]
           end
  end.

(** The text before and after the first [sep] of [s]. *)
Fixpoint partition (sep : ascii) (s : string) : option (string * string) :=
  match s with
  | "" => None
  | String c s' =>
      if Ascii.eqb c sep then Some ("", s')
      else match partition sep s' with
           | Some (before, after) => Some (String c before, after)
           | None => None
           end
  end.

(** [s.rsplit(sep, 1)]: split once, at the last [sep]. *)
Definition rsplit1 (sep : ascii) (s : string) : list string :=
  match partition sep (String.rev s) with
  | Some (tail_rev, head_rev) => [String.rev head_rev; String.rev tail_rev]
  | None => [s]
  end.

(** [sep.join(l)] *)
Fixpoint join (sep : string) (l : list string) : string :=
  match l with
  | [] => ""
  | [s] => s
  | s :: rest => s ++ sep ++ join sep rest
  end.

Definition digit_value (c : ascii) : option N :=
  if is_digit c then Some (N.of_nat (nat_of_ascii c - 48)) else None.

(** The digits of an integer literal: decimal digits, single underscores
    allowed between two digits.  [after_digit] tells whether the previous
    character was a digit. *)
Fixpoint int_digits (acc : N) (after_digit : bool) (s : string) : option N :=
  match s with
  | "" => if after_digit then Some acc else None
  | String c s' =>
      match digit_value c with
      | Some d => int_digits (10 * acc + d) true s'
      | None =>
          if Ascii.eqb c "_" && after_digit then int_digits acc false s'
          else None
      end
  end.

(** [int(s)]: white space around the literal is dropped, a sign may come
    first.  [None] stands for [ValueError]. *)
Definition int (s : string) : option Z :=
  match strip_by isspace_c s with
  | "" => None
  | String c r =>
      if Ascii.eqb c "+" then Z.of_N <$> int_digits 0 false r
      else if Ascii.eqb c "-" then
        (fun n => (- Z.of_N n)%Z) <$> int_digits 0 false r
      else Z.of_N <$> int_digits 0 false (String c r)
  end.

(** [str(n)] for a natural number. *)
Definition str (n : nat) : string := NilEmpty.string_of_uint (Nat.to_uint n).

(** *** The regular expression [--priority=(\w+)] with [re.IGNORECASE] *)

(** [\w] *)
Definition is_word (c : ascii) : bool :=
  is_upper c || is_lower c || is_digit c || Ascii.eqb c "_".

(** A literal matched at the start of [s] without regard to letter case;
    the result is the text after it. *)
Fixpoint match_literal (lit s : string) : option string :=
  match lit, s with
  | "", _ => Some s
  | String _ _, "" => None
  | String a lit', String c s' =>
      if Ascii.eqb (char_lower a) (char_lower c) then match_literal lit' s'
      else None
  end.

(** The longest run of word characters at the start of [s], and the rest. *)
Fixpoint span_word (s : string) : string * string :=
  match s with
  | "" => ("", "")
  | String c s' =>
      if is_word c then let '(w, r) := span_word s' in (String c w, r)
      else ("", s)
  end.

(** The pattern matched at the start of [s]: group 1 and the text after
    the match. *)
Definition match_here (s : string) : option (string * string) :=
  match match_literal "--priority=" s with
  | Some r =>
      match span_word r with
      | ("", _) => None
      | (g, rest) => Some (g, rest)
      end
  | None => None
  end.

(** [re.search(pattern, s, re.IGNORECASE)]: group 1 of the leftmost match. *)
Fixpoint re_search (s : string) : option string :=
  match match_here s with
  | Some (g, _) => Some g
  | None =>
      match s with
      | "" => None
      | String _ s' => re_search s'
      end
  end.

(** [re.sub(pattern, '', s, flags=re.IGNORECASE)]: every match, found from
    left to right and not overlapping, is dropped.  [skip] counts the
    characters of the current match that are still to be dropped. *)
Fixpoint re_sub_from (skip : nat) (s : string) : string :=
  match s with
  | "" => ""
  | String c s' =>
      match skip with
      | S k => re_sub_from k s'
      | O =>
          match match_here s with
          | Some (g, _) => re_sub_from (10 + String.length g) s'
          | None => String c (re_sub_from 0 s')
          end
      end
  end.

Definition re_sub (s : string) : string := re_sub_from 0 s.

(** [sorted(l, key=key)]: Python's sort is stable and compares keys with
    [<] only.  An element moves in front of the elements already placed
    whose key is not smaller than its own. *)
Fixpoint insert_sorted {A K : Type} (lt : K -> K -> bool) (key : A -> K)
    (x : A) (l : list A) : list A :=
  match l with
  | [] => [x]
  | y :: l' =>
      if lt (key y) (key x) then y :: insert_sorted lt key x l'
      else x :: y :: l'
  end.

Definition sorted {A K : Type} (lt : K -> K -> bool) (key : A -> K)
    (l : list A) : list A :=
  foldr (insert_sorted lt key) [] l.


End Py.

(** ** The project file: tasks, documents and their JSON text *)

(** A task dictionary.  [None] is an absent key. *)
Record task := Task {
  done : option bool;
  title : string;
  priority : option string
}.

(** The dictionary read from, and written to, the project file. *)
Record data := Data {
  name : option string;
  todos : option (list task)
}.

Module Json.

Local Open Scope list_scope.

(** The JSON values project files are made of. *)
Inductive json :=
| JBool (b : bool)
| JStr (s : string)
| JArr (l : list json)
| JObj (m : list (string * json)).

Definition text (s : string) : list ascii := list_ascii_of_string s.

Definition QUOTE : ascii := "034".
Definition BACKSLASH : ascii := "092".

(** *** [json.dump(obj, f, sort_keys=True, indent=4, ensure_ascii=False)] *)

Definition hex_digit (n : nat) : ascii :=
  if (n <? 10)%nat then ascii_of_nat (48 + n) else ascii_of_nat (87 + n).

(** With [ensure_ascii=False] only the quote, the backslash and the control
    characters below 32 are escaped. *)
Definition escape_char (c : ascii) : list ascii :=
  let n := nat_of_ascii c in
  if Ascii.eqb c QUOTE then [BACKSLASH; QUOTE]
  else if Ascii.eqb c BACKSLASH then [BACKSLASH; BACKSLASH]
  else if Ascii.eqb c "008" then [BACKSLASH; "b"%char]
  else if Ascii.eqb c "012" then [BACKSLASH; "f"%char]
  else if Ascii.eqb c "010" then [BACKSLASH; "n"%char]
  else if Ascii.eqb c "013" then [BACKSLASH; "r"%char]
  else if Ascii.eqb c "009" then [BACKSLASH; "t"%char]
  else if (n <? 32)%nat then
    [BACKSLASH; "u"%char; "0"%char; "0"%char;
     hex_digit (n / 16); hex_digit (n mod 16)]
  else [c].

Fixpoint escape (s : string) : list ascii :=
  match s with
  | "" => []
  | String c s' => escape_char c ++ escape s'
  end.

Definition quote (s : string) : list ascii := QUOTE :: escape s ++ [QUOTE].

Definition INDENT : nat := 4.

Definition newline_indent (level : nat) : list ascii :=
  "010"%char :: repeat " "%char (INDENT * level).

Fixpoint join_text (sep : list ascii) (l : list (list ascii)) : list ascii :=
  match l with
  | [] => []
  | [x] => x
  | x :: rest => x ++ sep ++ join_text sep rest
  end.

(** The members of a dictionary in the order [sort_keys=True] writes them. *)
Definition sort_items {A : Type} (m : list (string * A)) : list (string * A) :=
  Py.sorted String.ltb fst m.

Fixpoint render (level : nat) (v : json) : list ascii :=
  match v with
  | JBool b => if b then text "true" else text "false"
  | JStr s => quote s
  | JArr l =>
      match l with
      | [] => text "[]"
      | _ => "["%char :: newline_indent (S level)
             ++ join_text (","%char :: newline_indent (S level))
                  (map (render (S level)) l)
             ++ newline_indent level ++ ["]"%char]
      end
  | JObj m =>
      match m with
      | [] => text "{}"
      | _ => "{"%char :: newline_indent (S level)
             ++ join_text (","%char :: newline_indent (S level))
                  (map snd (sort_items
                     (map (fun kv : string * json =>
                             let '(k, x) := kv in
                             (k, quote k ++ text ": " ++ render (S level) x))
                          m)))
             ++ newline_indent level ++ ["}"%char]
      end
  end.

Definition dumps (v : json) : string := string_of_list_ascii (render 0 v).

(** *** [json.load(f)] *)

Definition is_ws (c : ascii) : bool :=
  Ascii.eqb c " " || Ascii.eqb c "009" || Ascii.eqb c "010" || Ascii.eqb c "013".

Fixpoint skip_ws (s : list ascii) : list ascii :=
  match s with
  | c :: s' => if is_ws c then skip_ws s' else s
  | [] => []
  end.

Definition hex_value (c : ascii) : option N :=
  let n := N_of_ascii c in
  if Py.is_digit c then Some (n - 48)%N
  else if (97 <=? n)%N && (n <=? 102)%N then Some (n - 87)%N
  else if (65 <=? n)%N && (n <=? 70)%N then Some (n - 55)%N
  else None.

Definition hex4 (a b c d : ascii) : option N :=
  match hex_value a, hex_value b, hex_value c, hex_value d with
  | Some x, Some y, Some z, Some t =>
      Some (((x * 16 + y) * 16 + z) * 16 + t)%N
  | _, _, _, _ => None
  end.

(** The UTF-8 bytes of a code point of the basic plane; surrogates, which
    Python pairs up or keeps as lone code points, are not embedded. *)
Definition utf8 (n : N) : option (list ascii) :=
  if (n <? 128)%N then Some [ascii_of_N n]
  else if (n <? 2048)%N then
    Some [ascii_of_N (192 + n / 64); ascii_of_N (128 + n mod 64)]
  else if (55296 <=? n)%N && (n <=? 57343)%N then None
  else Some [ascii_of_N (224 + n / 4096);
             ascii_of_N (128 + (n / 64) mod 64);
             ascii_of_N (128 + n mod 64)].

Definition unescape (e : ascii) : option ascii :=
  if Ascii.eqb e QUOTE then Some QUOTE
  else if Ascii.eqb e BACKSLASH then Some BACKSLASH
  else if Ascii.eqb e "/" then Some "/"%char
  else if Ascii.eqb e "b" then Some "008"%char
  else if Ascii.eqb e "f" then Some "012"%char
  else if Ascii.eqb e "n" then Some "010"%char
  else if Ascii.eqb e "r" then Some "013"%char
  else if Ascii.eqb e "t" then Some "009"%char
  else None.

Definition prepend (cs : list ascii) (r : string * list ascii)
    : string * list ascii :=
  (foldr String (fst r) cs, snd r).

(** The characters of a string literal after its opening quote, up to and
    including the closing quote; the decoder is strict, a raw control
    character is an error. *)
Fixpoint parse_chars (s : list ascii) : option (string * list ascii) :=
  match s with
  | [] => None
  | c :: r =>
      if Ascii.eqb c QUOTE then Some ("", r)
      else if Ascii.eqb c BACKSLASH then
        match r with
        | [] => None
        | e :: r' =>
            if Ascii.eqb e "u" then
              match r' with
              | h1 :: h2 :: h3 :: h4 :: r'' =>
                  match hex4 h1 h2 h3 h4 with
                  | Some n =>
                      match utf8 n with
                      | Some cs => prepend cs <$> parse_chars r''
                      | None => None
                      end
                  | None => None
                  end
              | _ => None
              end
            else
              match unescape e with
              | Some c' => prepend [c'] <$> parse_chars r'
              | None => None
              end
        end
      else if (nat_of_ascii c <? 32)%nat then None
      else prepend [c] <$> parse_chars r
  end.

(** A value at the start of [s], after optional white space, and the text
    after it.  [fuel] bounds the number of nested calls; the length of the
    text is always enough. *)
Fixpoint parse_value (fuel : nat) (s : list ascii) : option (json * list ascii) :=
  match fuel with
  | O => None
  | S fuel' =>
      match skip_ws s with
      | "t"%char :: "r"%char :: "u"%char :: "e"%char :: r => Some (JBool true, r)
      | "f"%char :: "a"%char :: "l"%char :: "s"%char :: "e"%char :: r =>
          Some (JBool false, r)
      | "034"%char :: r =>
          match parse_chars r with
          | Some (str, r') => Some (JStr str, r')
          | None => None
          end
      | "["%char :: r =>
          match skip_ws r with
          | "]"%char :: r' => Some (JArr [], r')
          | _ =>
              match parse_elements fuel' r with
              | Some (l, r') => Some (JArr l, r')
              | None => None
              end
          end
      | "{"%char :: r =>
          match skip_ws r with
          | "}"%char :: r' => Some (JObj [], r')
          | _ =>
              match parse_members fuel' r with
              | Some (m, r') => Some (JObj m, r')
              | None => None
              end
          end
      | _ => None
      end
  end
with parse_elements (fuel : nat) (s : list ascii)
    : option (list json * list ascii) :=
  match fuel with
  | O => None
  | S fuel' =>
      match parse_value fuel' s with
      | Some (v, r) =>
          match skip_ws r with
          | ","%char :: r' =>
              match parse_elements fuel' r' with
              | Some (l, r'') => Some (v :: l, r'')
              | None => None
              end
          | "]"%char :: r' => Some ([v], r')
          | _ => None
          end
      | None => None
      end
  end
with parse_members (fuel : nat) (s : list ascii)
    : option (list (string * json) * list ascii) :=
  match fuel with
  | O => None
  | S fuel' =>
      match skip_ws s with
      | "034"%char :: r =>
          match parse_chars r with
          | Some (k, r1) =>
              match skip_ws r1 with
              | ":"%char :: r2 =>
                  match parse_value fuel' r2 with
                  | Some (v, r3) =>
                      match skip_ws r3 with
                      | ","%char :: r4 =>
                          match parse_members fuel' r4 with
                          | Some (m, r5) => Some ((k, v) :: m, r5)
                          | None => None
                          end
                      | "}"%char :: r4 => Some ([(k, v)], r4)
                      | _ => None
                      end
                  | None => None
                  end
              | _ => None
              end
          | None => None
          end
      | _ => None
      end
  end.

(** The whole text is one value, white space around it allowed. *)
Definition loads (s : string) : option json :=
  let cs := list_ascii_of_string s in
  match parse_value (S (length cs)) cs with
  | Some (v, r) => match skip_ws r with [] => Some v | _ => None end
  | None => None
  end.

(** *** Dictionaries as JSON objects *)

(** [m[k]] of the dictionary built from the members [m]: of two members with
    one key the later one counts. *)
Definition get (k : string) (m : list (string * json)) : option json :=
  snd <$> find (fun kv => String.eqb (fst kv) k) (rev m).

Definition member (k : string) (x : option json) : list (string * json) :=
  match x with
  | Some v => [(k, v)]
  | None => []
  end.

Definition encode_todo (t : task) : json :=
  JObj (member "done" (JBool <$> done t)
        ++ [("title", JStr (title t))]
        ++ member "priority" (JStr <$> priority t)).

Definition encode_data (d : data) : json :=
  JObj (member "name" (JStr <$> name d)
        ++ member "todos" ((fun l => JArr (map encode_todo l)) <$> todos d)).

Definition only_keys (keys : list string) (m : list (string * json)) : bool :=
  forallb (fun kv => bool_decide (fst kv ∈ keys)) m.

Definition as_bool (x : option json) : option (option bool) :=
  match x with
  | None => Some None
  | Some (JBool b) => Some (Some b)
  | Some _ => None
  end.

Definition as_str (x : option json) : option (option string) :=
  match x with
  | None => Some None
  | Some (JStr s) => Some (Some s)
  | Some _ => None
  end.

(** A task object: a string ['title'], an optional boolean ['done'], an
    optional string ['priority'], no other key. *)
Definition decode_todo (v : json) : option task :=
  match v with
  | JObj m =>
      if only_keys ["done"; "title"; "priority"] m then
        match as_bool (get "done" m), get "title" m, as_str (get "priority" m) with
        | Some d, Some (JStr t), Some p => Some (Task d t p)
        | _, _, _ => None
        end
      else None
  | _ => None
  end.

Fixpoint decode_todos (l : list json) : option (list task) :=
  match l with
  | [] => Some []
  | v :: l' =>
      match decode_todo v, decode_todos l' with
      | Some t, Some ts => Some (t :: ts)
      | _, _ => None
      end
  end.

Definition as_todos (x : option json) : option (option (list task)) :=
  match x with
  | None => Some None
  | Some (JArr l) => Some <$> decode_todos l
  | Some _ => None
  end.

(** A project document: an optional string ['name'], an optional list of
    task objects ['todos'], no other key. *)
Definition decode_data (v : json) : option data :=
  match v with
  | JObj m =>
      if only_keys ["name"; "todos"] m then
        match as_str (get "name" m), as_todos (get "todos" m) with
        | Some n, Some ts => Some (Data n ts)
        | _, _ => None
        end
      else None
  | _ => None
  end.

(** *** What a written document reads back as *)

(** [v] with the members of every object in the order of their keys: the
    value the text [render level v] stands for. *)
Fixpoint canon (v : json) : json :=
  match v with
  | JArr l => JArr (map canon l)
  | JObj m =>
      JObj (sort_items
              (map (fun kv : string * json => let '(k, x) := kv in (k, canon x))
                   m))
  | _ => v
  end.

(** The number of values in [v], counting each element and member twice:
    fuel enough to read [v]. *)
Fixpoint size (v : json) : nat :=
  match v with
  | JArr l => S (list_sum (map (fun x => S (size x)) l))
  | JObj m =>
      S (list_sum (map (fun kv : string * json => let '(_, x) := kv in S (size x))
                       m))
  | _ => 1
  end.

(** The text of a value begins with the character that tells its kind. *)
Definition value_start (c : ascii) : Prop :=
  c = "t"%char \/ c = "f"%char \/ c = QUOTE \/ c = "["%char \/ c = "{"%char.

(** [x], written at any depth and followed by any text, reads back as
    [canon x] with that text left over. *)
Definition reads_back (x : json) : Prop :=
  forall level fuel rest,
    (size x <= fuel)%nat ->
    parse_value fuel (render level x ++ rest) = Some (canon x, rest).

(** In every object of [v] the members stand in the order of their keys. *)
Fixpoint keys_sorted (v : json) : Prop :=
  match v with
  | JArr l => fold_right (fun x rest => keys_sorted x /\ rest) True l
  | JObj m =>
      StronglySorted (fun a b => String.leb a b = true) (map fst m)
      /\ fold_right
           (fun (kv : string * json) rest =>
              (let '(_, x) := kv in keys_sorted x) /\ rest)
           True m
  | _ => True
  end.

End Json.

(** [json.dump(new_data, f, sort_keys=True, indent=4, ensure_ascii=False)]
    as the text written. *)
Definition json_dump (new_data : data) : string :=
  Json.dumps (Json.encode_data new_data).

(** [json.load(f)] on the text of a project file.  [None] stands for
    [JSONDecodeError]; JSON text that is not a project document as described
    at [Json.decode_data] is outside this embedding and gives [None] too. *)
Definition json_load (s : string) : option data :=
  match Json.loads s with
  | Some v => Json.decode_data v
  | None => None
  end.

(** ** The process: state, exceptions, exit *)

Record world := World {
  argv : list string;           (* sys.argv *)
  disk : option string;         (* the project file: its text, or absent *)
  write_error : option string;  (* the error opening it for writing raises, if any *)
  writes : nat;                 (* how often it was opened for writing *)
  stdout : list string          (* the lines printed *)
}.

Inductive exn :=
| FileNotFoundError
| JSONDecodeError
| IOError (msg : string)
| ValueError (msg : string).

Inductive result (A : Type) :=
| Return (a : A)
| Raise (e : exn)
| Exit (code : Z).

Arguments Return {A} a.
Arguments Raise {A} e.
Arguments Exit {A} code.

Definition M (A : Type) : Type := world -> result A * world.

Definition ret {A : Type} (a : A) : M A := fun w => (Return a, w).

Definition bind {A B : Type} (m : M A) (f : A -> M B) : M B :=
  fun w =>
    match m w with
    | (Return a, w') => f a w'
    | (Raise e, w') => (Raise e, w')
    | (Exit code, w') => (Exit code, w')
    end.

Notation "x <- c1 ;; c2" := (bind c1 (fun x => c2))
  (at level 100, c1 at next level, c2 at level 200, only parsing).
Notation "c1 ;; c2" := (bind c1 (fun _ => c2))
  (at level 100, c2 at level 200, only parsing).

Definition raise {A : Type} (e : exn) : M A := fun w => (Raise e, w).

(** [sys.exit(code)]; no handler of the commands catches it. *)
Definition sys_exit {A : Type} (code : Z) : M A := fun w => (Exit code, w).

(** [try: body except ...: handler] *)
Definition try_except {A : Type} (body : M A) (handler : exn -> M A) : M A :=
  fun w =>
    match body w with
    | (Raise e, w') => handler e w'
    | r => r
    end.

Definition print (line : string) : M unit :=
  fun w => (Return tt,
            World (argv w) (disk w) (write_error w) (writes w) (stdout w ++ [line])).

Definition sys_argv : M (list string) := fun w => (Return (argv w), w).

(** [open(PROJECT_FILE, 'r')] and reading the text. *)
Definition open_read : M string :=
  fun w =>
    match disk w with
    | Some text => (Return text, w)
    | None => (Raise FileNotFoundError, w)
    end.

(** [open(PROJECT_FILE, 'w')] and writing [text]. *)
Definition open_write (text : string) : M unit :=
  fun w =>
    match write_error w with
    | None =>
        (Return tt,
         World (argv w) (Some text) (write_error w) (S (writes w)) (stdout w))
    | Some err =>
        (Raise (IOError err),
         World (argv w) (disk w) (write_error w) (S (writes w)) (stdout w))
    end.

(** [json.load] on the text read. *)
Definition load (text : string) : M data :=
  match json_load text with
  | Some d => ret d
  | None => raise JSONDecodeError
  end.

(** ** [todo/commands/base.py]: class [Command] *)

Module Command.

Definition PROJECT_FILE : string := "todos.json".
Definition UNTITLED_NAME : string := "Untitled".
Definition PRIORITY_LEVELS : list string := ["low"; "medium"; "high"].
Definition DEFAULT_PRIORITY : string := "medium".

Definition validate_priority (priority : string) : M string :=
  let priority_lower := Py.lower priority in
  if bool_decide (priority_lower ∉ PRIORITY_LEVELS) then
    raise (ValueError ("Invalid priority: " ++ priority ++ ". Must be one of: "
                       ++ Py.join ", " PRIORITY_LEVELS))
  else ret priority_lower.

Definition read_project_file : M (option data) :=
  try_except
    (text <- open_read ;;
     d <- load text ;;
     ret (Some d))
    (fun e =>
       match e with
       | FileNotFoundError => ret None
       | JSONDecodeError =>
           print "Error: todos.json is corrupted (invalid JSON)" ;;
           sys_exit 1
       | _ => raise e
       end).

Definition update_project (new_data : data) : M unit :=
  try_except
    (open_write (json_dump new_data))
    (fun e =>
       match e with
       | IOError err =>
           print ("Error writing to " ++ PROJECT_FILE ++ ": " ++ err) ;;
           sys_exit 1
       | _ => raise e
       end).

Definition get_project_name : M string :=
  d <- read_project_file ;;
  match d with
  | None => ret UNTITLED_NAME
  | Some d =>
      let name := default "" (name d) in
      ret (if String.eqb name "" then UNTITLED_NAME else name)
  end.

Definition get_todos_list : M (list task) :=
  d <- read_project_file ;;
  match d with
  | None => ret []
  | Some d =>
      let todos := default [] (todos d) in
      ret (map (fun todo =>
                  match priority todo with
                  | None => Task (done todo) (title todo) (Some DEFAULT_PRIORITY)
                  | Some _ => todo
                  end) todos)
  end.

Definition get_command_attributes : M (option string) :=
  args <- sys_argv ;;
  match drop 2 args with
  | [] => ret None
  | attributes => ret (Some (Py.join " " attributes))
  end.

Definition get_titles_input : M (list string) :=
  titles_input <- get_command_attributes ;;
  match titles_input with
  | None | Some "" =>
      print "Error: No input provided" ;;
      sys_exit 1
  | Some titles_input =>
      let titles := Py.split "," titles_input in
      let cleaned_titles :=
        map Py.strip (filter (fun title => Py.strip title <> "") titles) in
      match cleaned_titles with
      | [] =>
          print "Error: No valid input after parsing" ;;
          sys_exit 1
      | _ => ret cleaned_titles
      end
  end.

Definition create_todo_item (title priority : string) : M task :=
  validated_priority <-
    try_except (validate_priority priority)
      (fun e =>
         match e with
         | ValueError err => print err ;; sys_exit 1
         | _ => raise e
         end) ;;
  ret (Task (Some false) title (Some validated_priority)).

(** The argument is a position as the user counts, from 1, given as a
    string. *)
Definition find_todo_by_index (todos : list task) (index : string) : option task :=
  match Py.int index with
  | Some n =>
      let list_index := (n - 1)%Z in
      if bool_decide (0 <= list_index < Z.of_nat (length todos))%Z
      then todos !! Z.to_nat list_index
      else None
  | None => None
  end.

Definition priority_rank (priority : string) : nat :=
  if String.eqb priority "high" then 0
  else if String.eqb priority "medium" then 1
  else if String.eqb priority "low" then 2
  else 1.

Definition sort_key (todo : task) : bool * nat :=
  let priority := default DEFAULT_PRIORITY (priority todo) in
  let priority_value := priority_rank priority in
  (default false (done todo), priority_value).

(** [<] on the tuples [sort_key] returns: [False < True], then the rank. *)
Definition key_lt (a b : bool * nat) : bool :=
  match fst a, fst b with
  | false, true => true
  | true, false => false
  | _, _ => (snd a <? snd b)%nat
  end.

Definition sort_todos_by_priority (todos : list task) : list task :=
  Py.sorted key_lt sort_key todos.

(** [ask_create_project] ends in [sys.exit()] and so never returns: its
    result type is empty. *)
Definition ask_create_project : M Empty_set :=
  print "No project found. Create one with: todo init" ;;
  sys_exit 0.

Definition project_not_found : M Empty_set :=
  print ("Error: Project file not found (" ++ PROJECT_FILE ++ ")") ;;
  print "Create one with: todo init" ;;
  sys_exit 1.

(** The colours of [todo.utils.styles.Fore] that [get_priority_color]
    uses.  The module is not among the sources: its constants are
    parameters. *)
Record fore := Fore {
  FAIL : string;
  WARNING : string;
  GREEN : string
}.

Definition get_priority_color (Fore : fore) (priority : string) : string :=
  if String.eqb priority "high" then FAIL Fore
  else if String.eqb priority "medium" then WARNING Fore
  else if String.eqb priority "low" then GREEN Fore
  else GREEN Fore.

Definition get_priority_symbol (priority : string) : string :=
  if String.eqb priority "high" then "!!!"
  else if String.eqb priority "medium" then "~~"
  else if String.eqb priority "low" then "--"
  else "--".

Definition get_priority_icon (priority : string) : string :=
  if String.eqb priority "high" then "🔴"
  else if String.eqb priority "medium" then "🟡"
  else if String.eqb priority "low" then "🟢"
  else "⭕".





(** [<] on booleans: [False < True]. *)
Definition bool_lt (a b : bool) : bool := negb a && b.

Definition sort_todos_by_completion (todos : list task) : list task :=
  Py.sorted bool_lt (fun todo => default false (done todo)) todos.


(** The keys ['title'] and ['done'] are required; a task of the embedding
    always has its ['title'], and its ['done'], when there, is a boolean. *)
Definition validate_todo_item (todo : task) : M bool :=
  match done todo with
  | None => raise (ValueError "Todo missing required field: done")
  | Some _ =>
      match priority todo with
      | Some p => validate_priority p ;; ret true
      | None => ret true
      end
  end.

End Command.

(** ** [todo/commands/add.py]: class [AddCommand] *)

Module AddCommand.

Import Command.

Definition parse_priority_from_input (input_string : string) : string * string :=
  match Py.re_search input_string with
  | Some group1 =>
      let priority := Py.lower group1 in
      let title := Py.strip (Py.re_sub input_string) in
      (title, priority)
  | None => (Py.strip input_string, DEFAULT_PRIORITY)
  end.

(** The body of the [for] loop: one item appended. *)
Definition append_item (new_todos : list task) (item : string) : list task :=
  let '(title, priority) := parse_priority_from_input item in
  let new_item := Task (Some false) title (Some priority) in
  new_todos ++ [new_item].

Definition update_todos (todos : list task) : M (list task) :=
  let new_todos := todos in
  items <- get_titles_input ;;
  ret (fold_left append_item items new_todos).

Definition run : M unit :=
  d <- try_except
         (text <- open_read ;; load text)
         (fun e =>
            match e with
            | FileNotFoundError =>
                (* [self.run()] and [return] come after a call that never
                   returns *)
                never <- ask_create_project ;;
                match never : Empty_set with end
            | _ =>
                print "An error has occured while adding todos." ;;
                sys_exit 1
            end) ;;
  let name := default UNTITLED_NAME (name d) in
  let todos := default [] (todos d) in
  new_todos <- update_todos todos ;;
  let new_data := Data (Some name) (Some new_todos) in
  update_project new_data ;;
  print "âœ“ Task(s) added successfully!".

End AddCommand.

(** ** [todo/commands/prio.py]: class [PrioCommand] *)

Module PrioCommand.

Import Command.

Definition parse_prio_input : M (string * string) :=
  attributes <- get_command_attributes ;;
  match attributes with
  | None | Some "" =>
      print "Usage: todo prio <task_number_or_title> <priority>" ;;
      sys_exit 1
  | Some attributes =>
      match Py.rsplit1 " " attributes with
      | [task_id; priority] => ret (Py.strip task_id, Py.strip priority)
      | _ =>
          print "Error: Please provide both task identifier and priority" ;;
          sys_exit 1
      end
  end.

(** The first position whose title, in lower case, is [identifier_lower]:
    the [for index, todo in enumerate(todos)] loop, [index] counting from
    [start]. *)
Fixpoint find_title (identifier_lower : string) (start : nat) (todos : list task)
    : option (nat * task) :=
  match todos with
  | [] => None
  | todo :: rest =>
      if String.eqb (Py.lower (title todo)) identifier_lower
      then Some (start, todo)
      else find_title identifier_lower (S start) rest
  end.

(** [None] is the pair [(None, None)]. *)
Definition find_todo_by_identifier (todos : list task) (identifier : string)
    : option (nat * task) :=
  match Py.int identifier with
  | Some n =>
      let list_index := (n - 1)%Z in
      if bool_decide (0 <= list_index < Z.of_nat (length todos))%Z
      then (fun todo => (Z.to_nat list_index, todo)) <$> todos !! Z.to_nat list_index
      else None
  | None =>
      let identifier_lower := Py.lower identifier in
      find_title identifier_lower 0 todos
  end.

Definition update_todo_priority (todo : task) (new_priority : string) : M task :=
  let updated_todo := todo in
  validated_priority <-
    try_except (validate_priority new_priority)
      (fun e =>
         match e with
         | ValueError err => print err ;; sys_exit 1
         | _ => raise e
         end) ;;
  ret (Task (done updated_todo) (title updated_todo) (Some validated_priority)).

Definition run : M unit :=
  d <- try_except
         (text <- open_read ;; load text)
         (fun e =>
            match e with
            | FileNotFoundError =>
                never <- project_not_found ;;
                match never : Empty_set with end
            | _ =>
                print "Error reading project file" ;;
                sys_exit 1
            end) ;;
  let name := default UNTITLED_NAME (name d) in
  let todos := default [] (todos d) in
  parsed <- parse_prio_input ;;
  let '(task_id, new_priority) := parsed in
  match find_todo_by_identifier todos task_id with
  | None =>
      print ("Task not found: " ++ task_id) ;;
      sys_exit 1
  | Some (list_index, todo) =>
      let old_priority := default DEFAULT_PRIORITY (priority todo) in
      updated_todo <- update_todo_priority todo new_priority ;;
      let todos := <[list_index := updated_todo]> todos in
      let new_data := Data (Some name) (Some todos) in
      update_project new_data ;;
      print ("✓ Priority changed: " ++ title todo
             ++ " (" ++ Py.upper old_priority ++ " → "
             ++ Py.upper new_priority ++ ")")
  end.

End PrioCommand.

(** ** Properties stated in the words of the specification *)

(** [raw] is a letter-case variant of [canonical]: the same letters, each
    one as it is or as its capital. *)
Fixpoint case_variant (raw canonical : string) : Prop :=
  match raw, canonical with
  | "", "" => True
  | String a raw', String b canonical' =>
      (a = b \/ a = Py.char_upper b) /\ case_variant raw' canonical'
  | _, _ => False
  end.

(** Every character is a small letter. *)
Fixpoint all_lower (s : string) : Prop :=
  match s with
  | "" => True
  | String c s' => Py.is_lower c = true /\ all_lower s'
  end.



(** Every character of [s] passes the test [p]. *)
Fixpoint string_forall (p : ascii -> bool) (s : string) : bool :=
  match s with
  | "" => true
  | String c s' => p c && string_forall p s'
  end.

(** The order on sort keys [(done, rank)]: incomplete before complete, and
    within one completion state the smaller rank first. *)
Definition key_le (a b : bool * nat) : Prop :=
  (fst a = false /\ fst b = true) \/ (fst a = fst b /\ (snd a <= snd b)%nat).


(** [x] may stand before [y] in a list sorted by [key]: the key of [y] is
    not smaller than the key of [x]. *)
Definition in_order {A K : Type} (lt : K -> K -> bool) (key : A -> K)
    (x y : A) : Prop :=
  lt (key y) (key x) = false.

(** The example of the specification. *)
Definition example_todos : list task :=
  [Task (Some false) "a" (Some "medium");
   Task (Some true) "b" (Some "high");
   Task (Some false) "c" (Some "low");
   Task (Some false) "d" (Some "high")].

(** No write was attempted between the states [w] and [w']: the project
    file holds the same bytes and was not opened for writing. *)
Definition untouched (w w' : world) : Prop :=
  disk w' = disk w /\ writes w' = writes w.

(** All that [add] checks before it writes holds in [w]: the project file
    exists, it parses, and the input has a piece that is not empty. *)
Definition add_validated (w : world) : Prop :=
  exists text d items,
    disk w = Some text /\ json_load text = Some d
    /\ Command.get_titles_input w = (Return items, w).

(** All that [prio] checks before it writes holds in [w]: the project file
    exists, it parses, the input splits in identifier and priority, the
    identifier names a task and the priority is one of the enum. *)
Definition prio_validated (w : world) : Prop :=
  exists text d task_id new_priority found,
    disk w = Some text /\ json_load text = Some d
    /\ PrioCommand.parse_prio_input w = (Return (task_id, new_priority), w)
    /\ PrioCommand.find_todo_by_identifier (default [] (todos d)) task_id
       = Some found
    /\ Py.lower new_priority ∈ Command.PRIORITY_LEVELS.

(** The pieces of an append input: split on commas, each piece trimmed, the
    empty ones dropped. *)
Definition pieces (input : string) : list string :=
  filter (fun piece => piece <> "") (map Py.strip (Py.split "," input)).

(** The task a trimmed piece stands for: not done; with a priority flag, the
    flag's value in lower case and the piece without its flags, trimmed;
    without one, medium priority and the piece. *)
Definition new_task (piece : string) : task :=
  match Py.re_search piece with
  | Some value =>
      Task (Some false) (Py.strip (Py.re_sub piece)) (Some (Py.lower value))
  | None => Task (Some false) piece (Some "medium")
  end.


(** A task as callers see it: an absent priority reads as medium. *)
Definition exposed (t : task) : task :=
  Task (done t) (title t) (Some (default "medium" (priority t))).

(** [s] between double quotes, and lines joined by line feeds: to write
    down what a project file looks like. *)
Definition quoted (s : string) : string :=
  String Json.QUOTE (s ++ String Json.QUOTE "").

Definition lines (l : list string) : string := Py.join (String "010" "") l.

(** The document and the text of the example at [update_project]. *)
Definition example_project : data :=
  Data (Some "My Project") (Some [Task (Some false) "Task 1" (Some "high")]).

Definition example_text : string :=
  lines
    ["{";
     "    " ++ quoted "name" ++ ": " ++ quoted "My Project" ++ ",";
     "    " ++ quoted "todos" ++ ": [";
     "        {";
     "            " ++ quoted "done" ++ ": false,";
     "            " ++ quoted "priority" ++ ": " ++ quoted "high" ++ ",";
     "            " ++ quoted "title" ++ ": " ++ quoted "Task 1";
     "        }";
     "    ]";
     "}"].

(** * Proofs *)

(** ** Text *)

Section TextFacts.

Lemma char_lower_of_lower (b : ascii) :
  Py.is_lower b = true -> Py.char_lower b = b.
Proof.
  unfold Py.is_lower, Py.char_lower, Py.is_upper. intros H.
  apply andb_true_iff in H as [H1 H2].
  apply Nat.leb_le in H1. apply Nat.leb_le in H2.
  destruct (nat_of_ascii b <=? 90)%nat eqn:E.
  - apply Nat.leb_le in E. lia.
  - now rewrite andb_false_r.
Qed.

Lemma char_lower_upper (b : ascii) :
  Py.is_lower b = true -> Py.char_lower (Py.char_upper b) = b.
Proof.
  intros H. unfold Py.char_upper. rewrite H.
  unfold Py.is_lower in H. apply andb_true_iff in H as [H1 H2].
  apply Nat.leb_le in H1. apply Nat.leb_le in H2.
  unfold Py.char_lower, Py.is_upper.
  rewrite nat_ascii_embedding by lia.
  replace (65 <=? nat_of_ascii b - 32)%nat with true
    by (symmetry; apply Nat.leb_le; lia).
  replace (nat_of_ascii b - 32 <=? 90)%nat with true
    by (symmetry; apply Nat.leb_le; lia).
  simpl. replace (nat_of_ascii b - 32 + 32)%nat with (nat_of_ascii b) by lia.
  apply ascii_nat_embedding.
Qed.

Lemma char_lower_inv (a b : ascii) :
  Py.is_lower b = true -> Py.char_lower a = b -> a = b \/ a = Py.char_upper b.
Proof.
  intros Hb H. unfold Py.char_lower in H.
  destruct (Py.is_upper a) eqn:Ha; [right | now left].
  unfold Py.is_upper in Ha. apply andb_true_iff in Ha as [H1 H2].
  apply Nat.leb_le in H1. apply Nat.leb_le in H2.
  unfold Py.char_upper. rewrite Hb. subst b.
  rewrite nat_ascii_embedding by lia.
  replace (nat_of_ascii a + 32 - 32)%nat with (nat_of_ascii a) by lia.
  symmetry. apply ascii_nat_embedding.
Qed.

(** On a lowercase word, [lower] maps exactly its letter-case variants to it. *)
Lemma lower_case_variant (canonical : string) :
  all_lower canonical ->
  forall raw, Py.lower raw = canonical <-> case_variant raw canonical.
Proof.
  induction canonical as [|b canonical IH]; intros Hl raw.
  - destruct raw; simpl; intuition congruence.
  - destruct Hl as [Hb Hl]. destruct raw as [|a raw]; simpl.
    + intuition congruence.
    + split.
      * intros H. injection H as Hc Hr. split.
        -- now apply char_lower_inv.
        -- now apply IH.
      * intros [[-> | ->] Hr]; f_equal; try now apply IH.
        -- now apply char_lower_of_lower.
        -- now apply char_lower_upper.
Qed.

End TextFacts.

(** ** Priority validation *)

Section Validation.

Import Command.

Lemma levels_all_lower (canonical : string) :
  canonical ∈ PRIORITY_LEVELS -> all_lower canonical.
Proof.
  unfold PRIORITY_LEVELS. intros H.
  repeat (apply elem_of_cons in H as [-> | H]); [| | | now apply elem_of_nil in H];
    vm_compute; intuition.
Qed.

(** C8.  A letter-case variant of [low], [medium] or [high] validates to
    that canonical lowercase value; every other string raises the
    [ValueError] that carries the rejected value and the accepted set; the
    process state is the same afterwards in both cases. *)
Theorem validate_priority_spec (raw : string) (w : world) :
  (forall canonical,
     canonical ∈ PRIORITY_LEVELS -> case_variant raw canonical ->
     validate_priority raw w = (Return canonical, w))
  /\ ((forall canonical,
         canonical ∈ PRIORITY_LEVELS -> ~ case_variant raw canonical) ->
      validate_priority raw w
      = (Raise (ValueError ("Invalid priority: " ++ raw
                            ++ ". Must be one of: low, medium, high")), w)).
Proof.
  unfold validate_priority. split.
  - intros canonical Hin Hv.
    apply (lower_case_variant _ (levels_all_lower _ Hin)) in Hv.
    rewrite Hv. rewrite bool_decide_eq_false_2; [reflexivity | tauto].
  - intros Hno. rewrite bool_decide_eq_true_2; [reflexivity |].
    intros Hin. apply (Hno _ Hin).
    now apply (lower_case_variant _ (levels_all_lower _ Hin)).
Qed.

Lemma validate_priority_spec_witness :
  validate_priority "MeDiuM" (World [] None None 0 []) = (Return "medium", World [] None None 0 [])
  /\ validate_priority "urgent" (World [] None None 0 [])
     = (Raise (ValueError "Invalid priority: urgent. Must be one of: low, medium, high"),
        World [] None None 0 []).
Proof.
  destruct (validate_priority_spec "MeDiuM" (World [] None None 0 [])) as [Hok _].
  destruct (validate_priority_spec "urgent" (World [] None None 0 [])) as [_ Herr].
  split.
  - apply Hok; [unfold PRIORITY_LEVELS; repeat constructor | vm_compute; tauto].
  - apply Herr. unfold PRIORITY_LEVELS. intros canonical Hin.
    repeat (apply elem_of_cons in Hin as [-> | Hin]);
      [| | | now apply elem_of_nil in Hin]; vm_compute; intuition discriminate.
Defined.
End Validation.

(** ** Reversal, trimming, and integers written and read back *)

Section IntFacts.

Lemma rev_app_rev_app (s1 s2 s3 : string) :
  String.rev_app (String.rev_app s1 s2) s3 = String.rev_app s2 (s1 ++ s3).
Proof.
  revert s2 s3. induction s1 as [|a s1 IH]; intros s2 s3; simpl.
  - reflexivity.
  - now rewrite IH.
Qed.

Lemma append_empty_r (s : string) : s ++ "" = s.
Proof.
  induction s as [|a s IH]; [reflexivity |].
  change (String a (s ++ "") = String a s). now rewrite IH.
Qed.

Lemma rev_involutive (s : string) : String.rev (String.rev s) = s.
Proof.
  unfold String.rev. rewrite rev_app_rev_app. exact (append_empty_r s).
Qed.

Lemma string_forall_rev_app (p : ascii -> bool) (s1 s2 : string) :
  string_forall p (String.rev_app s1 s2)
  = string_forall p s1 && string_forall p s2.
Proof.
  revert s2. induction s1 as [|a s1 IH]; intros s2; simpl.
  - reflexivity.
  - rewrite IH. simpl. now destruct (p a), (string_forall p s1).
Qed.

Lemma lstrip_no_space (space : ascii -> bool) (s : string) :
  string_forall (fun c => negb (space c)) s = true -> Py.lstrip_by space s = s.
Proof.
  destruct s as [|c s]; simpl; [reflexivity |].
  intros H. apply andb_true_iff in H as [H _].
  now destruct (space c).
Qed.

Lemma strip_no_space (space : ascii -> bool) (s : string) :
  string_forall (fun c => negb (space c)) s = true -> Py.strip_by space s = s.
Proof.
  intros H. unfold Py.strip_by, Py.rstrip_by.
  rewrite (lstrip_no_space space s H).
  rewrite lstrip_no_space.
  - apply rev_involutive.
  - unfold String.rev. rewrite string_forall_rev_app, H. reflexivity.
Qed.

Lemma string_forall_impl (p q : ascii -> bool) (s : string) :
  (forall c, p c = true -> q c = true) ->
  string_forall p s = true -> string_forall q s = true.
Proof.
  intros Hpq. induction s as [|c s IH]; simpl; [reflexivity |].
  intros H. apply andb_true_iff in H as [H1 H2].
  now rewrite (Hpq _ H1), IH.
Qed.

Lemma digit_not_space (c : ascii) :
  Py.is_digit c = true -> negb (Py.isspace_c c) = true.
Proof.
  unfold Py.is_digit, Py.isspace_c. intros H.
  apply andb_true_iff in H as [H1 H2].
  apply Nat.leb_le in H1. apply Nat.leb_le in H2.
  apply negb_true_iff, orb_false_iff. split.
  - apply andb_false_iff. right. apply Nat.leb_gt. lia.
  - apply Nat.eqb_neq. lia.
Qed.

Lemma string_of_uint_digits (d : uint) :
  string_forall Py.is_digit (NilEmpty.string_of_uint d) = true.
Proof. induction d; simpl; auto. Qed.

Lemma int_digits_of_uint (d : uint) :
  forall (acc : N) (b : bool),
    d <> Nil \/ b = true ->
    Py.int_digits acc b (NilEmpty.string_of_uint d)
    = Some (N.of_nat (Nat.of_uint_acc d (N.to_nat acc))).
Proof.
  induction d; intros acc b Hb;
    [ destruct Hb as [Hb | ->]; [congruence |]; simpl; now rewrite N2Nat.id | .. ];
    cbn [NilEmpty.string_of_uint Py.int_digits Nat.of_uint_acc];
    match goal with
    | |- context [Py.digit_value ?c] =>
        let v := eval vm_compute in (Py.digit_value c) in
        change (Py.digit_value c) with v
    end;
    cbv iota; rewrite IHd by (now right);
    rewrite Nat.tail_mul_spec; do 3 f_equal; lia.
Qed.

Lemma to_uint_not_nil (n : nat) : Nat.to_uint n <> Nil.
Proof.
  intros H. pose proof (DecimalNat.Unsigned.of_to n) as Hn.
  rewrite H in Hn. simpl in Hn. subst n. discriminate H.
Qed.

Lemma str_first (n : nat) :
  exists c r, Py.str n = String c r /\ Py.is_digit c = true.
Proof.
  unfold Py.str. pose proof (to_uint_not_nil n) as Hn.
  pose proof (string_of_uint_digits (Nat.to_uint n)) as Hd.
  destruct (Nat.to_uint n); [congruence | ..]; simpl in *;
    eexists _, _; (split; [reflexivity | reflexivity]).
Qed.

(** [int(str(n)) == n] *)
Lemma int_str (n : nat) : Py.int (Py.str n) = Some (Z.of_nat n).
Proof.
  unfold Py.int. rewrite strip_no_space.
  2:{ apply (string_forall_impl Py.is_digit); [apply digit_not_space |].
      apply string_of_uint_digits. }
  destruct (str_first n) as (c & r & Hs & Hc).
  rewrite Hs.
  assert (Ascii.eqb c "+" = false) as ->.
  { apply Ascii.eqb_neq. intros ->. discriminate Hc. }
  assert (Ascii.eqb c "-" = false) as ->.
  { apply Ascii.eqb_neq. intros ->. discriminate Hc. }
  rewrite <- Hs. unfold Py.str.
  rewrite int_digits_of_uint by (left; apply to_uint_not_nil).
  simpl. f_equal.
  change (Nat.of_uint_acc (Nat.to_uint n) (N.to_nat 0))
    with (Nat.of_uint (Nat.to_uint n)).
  rewrite DecimalNat.Unsigned.of_to. apply nat_N_Z.
Qed.

Lemma append_assoc (s1 s2 s3 : string) : (s1 ++ s2) ++ s3 = s1 ++ (s2 ++ s3).
Proof.
  induction s1 as [|a s1 IH]; [reflexivity |].
  change (String a ((s1 ++ s2) ++ s3) = String a (s1 ++ (s2 ++ s3))).
  now rewrite IH.
Qed.

Lemma rev_app_append (s1 s2 : string) :
  String.rev_app s1 s2 = String.rev s1 ++ s2.
Proof.
  revert s2. induction s1 as [|a s1 IH]; intros s2; [reflexivity |].
  unfold String.rev. cbn [String.rev_app].
  rewrite (IH (String a s2)), (IH (String a "")), append_assoc. reflexivity.
Qed.

Lemma rev_cons (a : ascii) (s : string) :
  String.rev (String a s) = String.rev s ++ String a "".
Proof. unfold String.rev at 1. cbn [String.rev_app]. apply rev_app_append. Qed.

Lemma rev_snoc (a : ascii) (s : string) :
  String.rev (s ++ String a "") = String a (String.rev s).
Proof.
  induction s as [|b s IH]; [reflexivity |].
  change (String b s ++ String a "") with (String b (s ++ String a "")).
  now rewrite !rev_cons, IH.
Qed.

Lemma lstrip_snoc (space : ascii -> bool) (c : ascii) (x : string) :
  space c = false ->
  Py.lstrip_by space (x ++ String c "") = Py.lstrip_by space x ++ String c "".
Proof.
  intros Hc. induction x as [|b x IH].
  - simpl. now rewrite Hc.
  - change (String b x ++ String c "") with (String b (x ++ String c "")).
    cbn [Py.lstrip_by]. destruct (space b); [exact IH | reflexivity].
Qed.

Lemma rstrip_cons (space : ascii -> bool) (c : ascii) (s : string) :
  space c = false ->
  Py.rstrip_by space (String c s) = String c (Py.rstrip_by space s).
Proof.
  intros Hc. unfold Py.rstrip_by.
  now rewrite rev_cons, (lstrip_snoc _ _ _ Hc), rev_snoc.
Qed.

Lemma lstrip_shape (space : ascii -> bool) (s : string) :
  Py.lstrip_by space s = ""
  \/ exists c r, Py.lstrip_by space s = String c r /\ space c = false.
Proof.
  induction s as [|c s IH]; [now left |].
  cbn [Py.lstrip_by]. destruct (space c) eqn:E; [exact IH | right; eauto].
Qed.

Lemma lstrip_idempotent (space : ascii -> bool) (s : string) :
  Py.lstrip_by space (Py.lstrip_by space s) = Py.lstrip_by space s.
Proof.
  destruct (lstrip_shape space s) as [-> | (c & r & -> & Hc)]; [reflexivity |].
  cbn [Py.lstrip_by]. now rewrite Hc.
Qed.

Lemma rstrip_idempotent (space : ascii -> bool) (s : string) :
  Py.rstrip_by space (Py.rstrip_by space s) = Py.rstrip_by space s.
Proof. unfold Py.rstrip_by. now rewrite rev_involutive, lstrip_idempotent. Qed.

(** Trimming a trimmed string changes nothing. *)
Lemma strip_idempotent (s : string) : Py.strip (Py.strip s) = Py.strip s.
Proof.
  unfold Py.strip, Py.strip_by.
  destruct (lstrip_shape Py.isspace s) as [-> | (c & r & -> & Hc)];
    [reflexivity |].
  rewrite (rstrip_cons _ _ _ Hc). cbn [Py.lstrip_by]. rewrite Hc.
  rewrite <- (rstrip_cons _ _ _ Hc). apply rstrip_idempotent.
Qed.

End IntFacts.

(** ** The priority flag *)

Section FlagFacts.

Lemma append_cons (c : ascii) (s1 s2 : string) :
  String c s1 ++ s2 = String c (s1 ++ s2).
Proof. reflexivity. Qed.












End FlagFacts.

(** ** Locating a task *)

Section Locate.

Import Command PrioCommand.

Lemma find_title_Some (id : string) (todos : list task) :
  forall (start i : nat) (t : task),
    find_title id start todos = Some (i, t)
    <-> exists k, i = (start + k)%nat
        /\ todos !! k = Some t
        /\ Py.lower (title t) = id
        /\ forall j t', (j < k)%nat -> todos !! j = Some t' ->
           Py.lower (title t') <> id.
Proof.
  induction todos as [|todo rest IH]; intros start i t; simpl.
  - split; [discriminate |]. intros (k & _ & Hk & _). discriminate Hk.
  - destruct (String.eqb (Py.lower (title todo)) id) eqn:E.
    + apply String.eqb_eq in E. split.
      * intros H. injection H as <- <-. exists 0%nat.
        repeat split; [lia | assumption | intros j t' Hj; lia].
      * intros (k & -> & Hk & Ht & Hfirst). destruct k as [|k].
        -- injection Hk as <-. do 2 f_equal. lia.
        -- exfalso. apply (Hfirst 0%nat todo); [lia | reflexivity | assumption].
    + apply String.eqb_neq in E. rewrite IH. split.
      * intros (k & -> & Hk & Ht & Hfirst). exists (S k).
        repeat split; [lia | assumption | assumption |].
        intros [|j] t' Hj Hl; [injection Hl as <-; assumption |].
        apply (Hfirst j); [lia | assumption].
      * intros (k & -> & Hk & Ht & Hfirst). destruct k as [|k].
        -- injection Hk as <-. contradiction.
        -- exists k. repeat split; [lia | assumption | assumption |].
           intros j t' Hj Hl. apply (Hfirst (S j)); [lia | assumption].
Qed.






(** By position alone, [find_todo_by_index] returns the task that
    [find_todo_by_identifier] returns. *)
Lemma find_todo_by_index_agrees (todos : list task) (index : string) (n : Z) :
  Py.int index = Some n ->
  find_todo_by_index todos index = snd <$> find_todo_by_identifier todos index.
Proof.
  intros H. unfold find_todo_by_index, find_todo_by_identifier. rewrite H.
  destruct (bool_decide _); [|reflexivity].
  now destruct (todos !! Z.to_nat (n - 1)).
Qed.

End Locate.

(** ** [sorted]: a stable sort *)

Section SortedFacts.

Context {A K : Type} `{EqDecision K} (lt : K -> K -> bool) (key : A -> K).

Hypothesis lt_irrefl : forall a, lt a a = false.
Hypothesis lt_asym : forall a b, lt a b = true -> lt b a = false.
Hypothesis le_trans :
  forall a b c, lt b a = false -> lt c b = false -> lt c a = false.

Lemma insert_sorted_perm (x : A) (l : list A) :
  Permutation (Py.insert_sorted lt key x l) (x :: l).
Proof.
  induction l as [|y l IH]; simpl; [reflexivity |].
  destruct (lt (key y) (key x)); [|reflexivity].
  rewrite IH. apply perm_swap.
Qed.

Lemma sorted_perm (l : list A) : Permutation (Py.sorted lt key l) l.
Proof.
  induction l as [|x l IH]; simpl; [reflexivity |].
  rewrite insert_sorted_perm. now rewrite IH.
Qed.

Lemma insert_sorted_in_order (x : A) (l : list A) :
  StronglySorted (in_order lt key) l ->
  StronglySorted (in_order lt key) (Py.insert_sorted lt key x l).
Proof.
  induction 1 as [|y l Hs IH Hy]; simpl.
  - repeat constructor.
  - destruct (lt (key y) (key x)) eqn:E.
    + constructor; [assumption |].
      rewrite insert_sorted_perm. constructor; [|assumption].
      unfold in_order. now apply lt_asym.
    + constructor; [now constructor |].
      constructor; [exact E |].
      eapply Forall_impl; [exact Hy |].
      intros z Hz. unfold in_order in *. now apply (le_trans _ (key y)).
Qed.

Lemma sorted_in_order (l : list A) :
  StronglySorted (in_order lt key) (Py.sorted lt key l).
Proof.
  induction l as [|x l IH]; simpl; [constructor |].
  now apply insert_sorted_in_order.
Qed.

Lemma insert_sorted_filter (k : K) (x : A) (l : list A) :
  filter (fun y => key y = k) (Py.insert_sorted lt key x l)
  = filter (fun y => key y = k) (x :: l).
Proof.
  induction l as [|y l IH]; simpl; [reflexivity |].
  destruct (lt (key y) (key x)) eqn:E; [|reflexivity].
  rewrite filter_cons, IH, !filter_cons.
  destruct (decide (key y = k)) as [Hy|Hy]; [|reflexivity].
  destruct (decide (key x = k)) as [Hx|Hx]; [|reflexivity].
  rewrite Hy, Hx, lt_irrefl in E. discriminate E.
Qed.

(** Tasks with one key keep their relative order. *)
Lemma sorted_stable (k : K) (l : list A) :
  filter (fun y => key y = k) (Py.sorted lt key l)
  = filter (fun y => key y = k) l.
Proof.
  induction l as [|x l IH]; simpl; [reflexivity |].
  rewrite insert_sorted_filter, !filter_cons, IH. reflexivity.
Qed.


Lemma strongly_sorted_impl (R R' : A -> A -> Prop) (l : list A) :
  (forall x y, R x y -> R' x y) -> StronglySorted R l -> StronglySorted R' l.
Proof.
  intros HR. induction 1 as [|z l Hs IH Hz]; constructor; [assumption |].
  eapply Forall_impl; [exact Hz |]. intros y. apply HR.
Qed.

Lemma strongly_sorted_lookup (R : A -> A -> Prop) (l : list A) :
  StronglySorted R l ->
  forall i j x y, (i < j)%nat -> l !! i = Some x -> l !! j = Some y -> R x y.
Proof.
  induction 1 as [|z l Hs IH Hz]; intros i j x y Hij Hi Hj.
  - discriminate Hi.
  - destruct j as [|j]; [lia |]. simpl in Hj. destruct i as [|i].
    + injection Hi as <-. rewrite Forall_forall in Hz. apply Hz.
      eapply list_elem_of_lookup_2. exact Hj.
    + simpl in Hi. apply (IH i j); [lia | assumption | assumption].
Qed.

End SortedFacts.

(** ** Sorting tasks by priority *)

Section SortTodos.

Import Command.

Lemma key_lt_irrefl (a : bool * nat) : key_lt a a = false.
Proof. destruct a as [[] n]; unfold key_lt; simpl; apply Nat.ltb_irrefl. Qed.

Lemma key_lt_asym (a b : bool * nat) : key_lt a b = true -> key_lt b a = false.
Proof.
  destruct a as [[] n], b as [[] m]; unfold key_lt; simpl;
    try discriminate; try reflexivity;
    intros H; apply Nat.ltb_lt in H; apply Nat.ltb_ge; lia.
Qed.

Lemma key_le_trans (a b c : bool * nat) :
  key_lt b a = false -> key_lt c b = false -> key_lt c a = false.
Proof.
  destruct a as [[] n], b as [[] m], c as [[] k]; unfold key_lt; simpl;
    try discriminate; try reflexivity;
    intros H1 H2; apply Nat.ltb_ge in H1; apply Nat.ltb_ge in H2;
    apply Nat.ltb_ge; lia.
Qed.

(** The test [<] of the sort and the order [key_le] say the same. *)
Lemma key_lt_le (a b : bool * nat) : key_lt b a = false <-> key_le a b.
Proof.
  destruct a as [[] n], b as [[] m]; unfold key_lt, key_le; simpl;
    rewrite ?Nat.ltb_ge; intuition (try discriminate; try lia).
Qed.

Lemma sort_todos_sorted (todos : list task) :
  StronglySorted (fun x y => key_le (sort_key x) (sort_key y))
    (sort_todos_by_priority todos).
Proof.
  eapply strongly_sorted_impl; [|apply (sorted_in_order key_lt sort_key)].
  - intros x y H. apply key_lt_le. exact H.
  - apply key_lt_asym.
  - apply key_le_trans.
Qed.

(** C4.  [sort_todos_by_priority] is the stable sort by the key
    [(done, rank)] with [high = 0], [medium = 1], [low = 2]: its result is a
    rearrangement of the list, in the order of the keys, and tasks with one
    key keep their relative order; every incomplete task stands before
    every complete one, and among tasks of one completion state the ranks
    never decrease.  The example list sorts to [d; a; c; b]. *)
Theorem sort_todos_by_priority_spec (todos : list task) :
  priority_rank "high" = 0%nat /\ priority_rank "medium" = 1%nat
  /\ priority_rank "low" = 2%nat
  /\ Permutation (sort_todos_by_priority todos) todos
  /\ StronglySorted (fun x y => key_le (sort_key x) (sort_key y))
       (sort_todos_by_priority todos)
  /\ (forall k,
        filter (fun t => sort_key t = k) (sort_todos_by_priority todos)
        = filter (fun t => sort_key t = k) todos)
  /\ (forall i j x y,
        sort_todos_by_priority todos !! i = Some x ->
        sort_todos_by_priority todos !! j = Some y ->
        default false (done x) = false -> default false (done y) = true ->
        (i < j)%nat)
  /\ (forall i j x y,
        sort_todos_by_priority todos !! i = Some x ->
        sort_todos_by_priority todos !! j = Some y ->
        default false (done x) = default false (done y) -> (i < j)%nat ->
        (priority_rank (default DEFAULT_PRIORITY (priority x))
         <= priority_rank (default DEFAULT_PRIORITY (priority y)))%nat)
  /\ sort_todos_by_priority example_todos
     = [Task (Some false) "d" (Some "high");
        Task (Some false) "a" (Some "medium");
        Task (Some false) "c" (Some "low");
        Task (Some true) "b" (Some "high")].
Proof.
  pose proof (sort_todos_sorted todos) as Hs.
  pose proof (strongly_sorted_lookup _ _ Hs) as Hl.
  repeat (split; [reflexivity |]).
  split; [apply sorted_perm |].
  split; [exact Hs |].
  split; [intros k; apply sorted_stable, key_lt_irrefl |].
  split; [|split; [|reflexivity]].
  - intros i j x y Hi Hj Hx Hy.
    destruct (Nat.lt_trichotomy i j) as [H | [H | H]]; [exact H | |].
    + subst j. rewrite Hi in Hj. injection Hj as <-. congruence.
    + exfalso. specialize (Hl j i y x H Hj Hi).
      unfold key_le, sort_key in Hl. simpl in Hl. rewrite Hx, Hy in Hl.
      destruct Hl as [[? ?] | [? ?]]; discriminate.
  - intros i j x y Hi Hj Hd Hij.
    specialize (Hl i j x y Hij Hi Hj).
    unfold key_le, sort_key in Hl. simpl in Hl.
    destruct Hl as [[H1 H2] | [_ H]]; [congruence | exact H].
Qed.

Lemma sort_todos_by_priority_spec_witness : (2 < 3)%nat.
Proof.
  apply (proj1 (proj2 (proj2 (proj2 (proj2 (proj2 (proj2
           (sort_todos_by_priority_spec example_todos)))))))
           2%nat 3%nat
           (Task (Some false) "c" (Some "low"))
           (Task (Some true) "b" (Some "high"))); reflexivity.
Defined.



End SortTodos.

(** ** The project file written and read back *)

Lemma sorted_map_key {A B K : Type} (lt : K -> K -> bool)
    (key : A -> K) (key' : B -> K) (g : A -> B) (l : list A) :
  (forall x, key' (g x) = key x) ->
  Py.sorted lt key' (map g l) = map g (Py.sorted lt key l).
Proof.
  intros Hg. induction l as [|x l IH]; simpl; [reflexivity |].
  rewrite IH. generalize (Py.sorted lt key l). intros s.
  induction s as [|y s IHs]; simpl; [reflexivity |].
  rewrite !Hg. destruct (lt (key y) (key x)); simpl; [now rewrite IHs | reflexivity].
Qed.

Section JsonFacts.

Import Json.
Local Open Scope list_scope.

Lemma parse_chars_escape_char (c : ascii) (tail : list ascii) :
  parse_chars (escape_char c ++ tail) = prepend [c] <$> parse_chars tail.
Proof.
  destruct c as [[] [] [] [] [] [] [] []]; reflexivity.
Qed.

(** A string literal reads back as the string written. *)
Lemma parse_chars_escape (s : string) (rest : list ascii) :
  parse_chars (escape s ++ QUOTE :: rest) = Some (s, rest).
Proof.
  induction s as [|c s IH]; simpl; [reflexivity |].
  rewrite <- app_assoc, parse_chars_escape_char, IH. reflexivity.
Qed.

Lemma skip_ws_newline_indent (level : nat) (s : list ascii) :
  skip_ws (newline_indent level ++ s) = skip_ws s.
Proof.
  unfold newline_indent. generalize (INDENT * level)%nat. intros n.
  change (skip_ws (repeat " "%char n ++ s) = skip_ws s).
  induction n as [|n IH]; simpl; [reflexivity | exact IH].
Qed.

Lemma parse_value_skip_ws (fuel : nat) (s : list ascii) :
  parse_value fuel s = parse_value fuel (skip_ws s).
Proof.
  assert (Hidem : forall t, skip_ws (skip_ws t) = skip_ws t).
  { induction t as [|c t IH]; simpl; [reflexivity |].
    destruct (is_ws c) eqn:E; [exact IH | simpl; now rewrite E]. }
  destruct fuel; simpl; [reflexivity | now rewrite Hidem].
Qed.

Lemma json_induction (P : json -> Prop) :
  (forall b, P (JBool b)) ->
  (forall s, P (JStr s)) ->
  (forall l, Forall P l -> P (JArr l)) ->
  (forall m, Forall (fun kv => P (snd kv)) m -> P (JObj m)) ->
  forall v, P v.
Proof.
  intros Hb Hs Ha Ho. fix IH 1. intros [b | s | l | m].
  - apply Hb.
  - apply Hs.
  - apply Ha. induction l as [|x l IHl]; constructor; [apply IH | exact IHl].
  - apply Ho. induction m as [|[k x] m IHm]; constructor; [apply IH | exact IHm].
Qed.

Lemma sort_items_perm {A : Type} (m : list (string * A)) :
  Permutation (sort_items m) m.
Proof. apply sorted_perm. Qed.

Lemma render_start (level : nat) (v : json) :
  exists c tl, render level v = c :: tl /\ value_start c.
Proof.
  unfold value_start.
  destruct v as [[] | s | [|x l] | [|kx m]]; simpl; eauto 10.
Qed.

Lemma skip_ws_value (c : ascii) (tl : list ascii) :
  value_start c -> skip_ws (c :: tl) = c :: tl.
Proof. intros [-> | [-> | [-> | [-> | ->]]]]; reflexivity. Qed.

Lemma parse_elements_last (fuel : nat) (s r r' : list ascii) (v : json) :
  parse_value fuel s = Some (v, r) -> skip_ws r = "]"%char :: r' ->
  parse_elements (S fuel) s = Some ([v], r').
Proof. intros H1 H2. simpl. now rewrite H1, H2. Qed.

Lemma parse_elements_more (fuel : nat) (s r r' r'' : list ascii) (v : json)
    (l : list json) :
  parse_value fuel s = Some (v, r) -> skip_ws r = ","%char :: r' ->
  parse_elements fuel r' = Some (l, r'') ->
  parse_elements (S fuel) s = Some (v :: l, r'').
Proof. intros H1 H2 H3. simpl. now rewrite H1, H2, H3. Qed.

Lemma parse_members_last (fuel : nat) (s r r1 r2 r3 r4 : list ascii)
    (k : string) (v : json) :
  skip_ws s = QUOTE :: r -> parse_chars r = Some (k, r1) ->
  skip_ws r1 = ":"%char :: r2 -> parse_value fuel r2 = Some (v, r3) ->
  skip_ws r3 = "}"%char :: r4 ->
  parse_members (S fuel) s = Some ([(k, v)], r4).
Proof. intros H1 H2 H3 H4 H5. simpl. now rewrite H1, H2, H3, H4, H5. Qed.

Lemma parse_members_more (fuel : nat) (s r r1 r2 r3 r4 r5 : list ascii)
    (k : string) (v : json) (m : list (string * json)) :
  skip_ws s = QUOTE :: r -> parse_chars r = Some (k, r1) ->
  skip_ws r1 = ":"%char :: r2 -> parse_value fuel r2 = Some (v, r3) ->
  skip_ws r3 = ","%char :: r4 -> parse_members fuel r4 = Some (m, r5) ->
  parse_members (S fuel) s = Some ((k, v) :: m, r5).
Proof. intros H1 H2 H3 H4 H5 H6. simpl. now rewrite H1, H2, H3, H4, H5, H6. Qed.

Lemma parse_value_array (fuel : nat) (s r tl r' : list ascii) (c : ascii)
    (l : list json) :
  skip_ws s = "["%char :: r -> skip_ws r = c :: tl -> value_start c ->
  parse_elements fuel r = Some (l, r') ->
  parse_value (S fuel) s = Some (JArr l, r').
Proof.
  intros H1 H2 Hc H3. simpl. rewrite H1, H2.
  destruct Hc as [-> | [-> | [-> | [-> | ->]]]]; cbv iota; now rewrite H3.
Qed.

Lemma parse_value_object (fuel : nat) (s r tl r' : list ascii)
    (m : list (string * json)) :
  skip_ws s = "{"%char :: r -> skip_ws r = QUOTE :: tl ->
  parse_members fuel r = Some (m, r') ->
  parse_value (S fuel) s = Some (JObj m, r').
Proof. intros H1 H2 H3. simpl. rewrite H1, H2. cbv iota. now rewrite H3. Qed.

Lemma parse_value_indented (fuel level level' : nat) (x : json)
    (rest : list ascii) :
  reads_back x -> (size x <= fuel)%nat ->
  parse_value fuel (newline_indent level' ++ render level x ++ rest)
  = Some (canon x, rest).
Proof.
  intros Hx Hf. rewrite parse_value_skip_ws, skip_ws_newline_indent.
  rewrite <- parse_value_skip_ws. now apply Hx.
Qed.

Lemma parse_elements_render (level : nat) (l : list json) :
  l <> [] -> Forall reads_back l ->
  forall fuel rest,
    (list_sum (map (fun x => S (size x)) l) <= fuel)%nat ->
    parse_elements fuel
      (newline_indent (S level)
       ++ join_text (","%char :: newline_indent (S level))
            (map (render (S level)) l)
       ++ newline_indent level ++ "]"%char :: rest)
    = Some (map canon l, rest).
Proof.
  intros Hne Hall. induction Hall as [|x l Hx Hall IH]; [congruence |].
  intros fuel rest Hf. simpl in Hf.
  destruct fuel as [|fuel]; [lia |].
  destruct l as [|y l].
  - eapply parse_elements_last.
    + cbn [map join_text]. apply parse_value_indented; [exact Hx | lia].
    + rewrite skip_ws_newline_indent. reflexivity.
  - eapply parse_elements_more.
    + cbn [map join_text]. rewrite <- !app_assoc.
      apply parse_value_indented; [exact Hx | lia].
    + reflexivity.
    + apply IH; [discriminate | lia].
Qed.

Lemma sort_items_map_values {A B : Type} (F : string -> A -> B)
    (m : list (string * A)) :
  sort_items (map (fun kv : string * A => let '(k, x) := kv in (k, F k x)) m)
  = map (fun kv : string * A => let '(k, x) := kv in (k, F k x)) (sort_items m).
Proof. apply sorted_map_key. now intros [k x]. Qed.

Lemma member_start (level : nat) (k : string) (body : list ascii) :
  skip_ws (newline_indent level ++ quote k ++ text ": " ++ body)
  = QUOTE :: escape k ++ QUOTE :: ":"%char :: " "%char :: body.
Proof.
  rewrite skip_ws_newline_indent. unfold quote.
  change (skip_ws ((QUOTE :: escape k ++ [QUOTE]) ++ text ": " ++ body))
    with (QUOTE :: (escape k ++ [QUOTE]) ++ text ": " ++ body).
  now rewrite <- app_assoc.
Qed.

Lemma parse_value_after_colon (fuel : nat) (body : list ascii) :
  parse_value fuel (" "%char :: body) = parse_value fuel body.
Proof.
  rewrite parse_value_skip_ws.
  change (skip_ws (" "%char :: body)) with (skip_ws body).
  symmetry. apply parse_value_skip_ws.
Qed.

Lemma parse_member_last (fuel level : nat) (k : string) (v : json)
    (body r3 r4 : list ascii) :
  parse_value fuel body = Some (v, r3) -> skip_ws r3 = "}"%char :: r4 ->
  parse_members (S fuel) (newline_indent level ++ quote k ++ text ": " ++ body)
  = Some ([(k, v)], r4).
Proof.
  intros H1 H2.
  eapply parse_members_last;
    [apply member_start | apply parse_chars_escape | reflexivity
    | rewrite parse_value_after_colon; exact H1 | exact H2].
Qed.

Lemma parse_member_more (fuel level : nat) (k : string) (v : json)
    (m : list (string * json)) (body r3 r4 r5 : list ascii) :
  parse_value fuel body = Some (v, r3) -> skip_ws r3 = ","%char :: r4 ->
  parse_members fuel r4 = Some (m, r5) ->
  parse_members (S fuel) (newline_indent level ++ quote k ++ text ": " ++ body)
  = Some ((k, v) :: m, r5).
Proof.
  intros H1 H2 H3.
  eapply parse_members_more;
    [apply member_start | apply parse_chars_escape | reflexivity
    | rewrite parse_value_after_colon; exact H1 | exact H2 | exact H3].
Qed.

Lemma parse_members_render (level : nat) (m : list (string * json)) :
  m <> [] -> Forall (fun kv => reads_back (snd kv)) m ->
  forall fuel rest,
    (list_sum (map (fun kv : string * json => let '(_, x) := kv in S (size x)) m)
     <= fuel)%nat ->
    parse_members fuel
      (newline_indent (S level)
       ++ join_text (","%char :: newline_indent (S level))
            (map (fun kv : string * json =>
                    let '(k, x) := kv in
                    quote k ++ text ": " ++ render (S level) x) m)
       ++ newline_indent level ++ "}"%char :: rest)
    = Some (map (fun kv : string * json => let '(k, x) := kv in (k, canon x)) m,
            rest).
Proof.
  intros Hne Hall. induction Hall as [|[k x] m Hx Hall IH]; [congruence |].
  intros fuel rest Hf. simpl in Hx. cbn [map list_sum] in Hf.
  destruct fuel as [|fuel]; [inversion Hf |].
  apply Nat.succ_le_mono in Hf.
  assert (Hfx : (size x <= fuel)%nat)
    by (eapply Nat.le_trans; [apply Nat.le_add_r | exact Hf]).
  destruct m as [|kx m].
  - cbn [map join_text]. rewrite <- !app_assoc.
    eapply parse_member_last.
    + apply Hx. exact Hfx.
    + rewrite skip_ws_newline_indent. reflexivity.
  - cbn [map join_text]. rewrite <- !app_assoc.
    eapply parse_member_more.
    + apply Hx. exact Hfx.
    + reflexivity.
    + apply IH; [discriminate |].
      eapply Nat.le_trans; [apply Nat.le_add_l | exact Hf].
Qed.

Lemma list_sum_perm {A : Type} (f : A -> nat) (l l' : list A) :
  Permutation l l' -> list_sum (map f l) = list_sum (map f l').
Proof. induction 1; simpl; lia. Qed.

Lemma elements_start (level : nat) (sep : list ascii) (x : json)
    (l : list json) (rest : list ascii) :
  exists c tl,
    join_text sep (map (render level) (x :: l)) ++ rest = c :: tl
    /\ value_start c.
Proof.
  destruct (render_start level x) as (c & tl & Hc & Hstart).
  exists c. destruct l as [|y l]; cbn [map join_text]; rewrite Hc; eauto.
Qed.

Lemma members_start (level : nat) (sep : list ascii) (kx : string * json)
    (m : list (string * json)) (rest : list ascii) :
  exists tl,
    join_text sep
      (map (fun kv : string * json =>
              let '(k, x) := kv in quote k ++ text ": " ++ render level x)
           (kx :: m)) ++ rest
    = QUOTE :: tl.
Proof.
  destruct kx as [k x]. destruct m as [|kx' m]; cbn [map join_text];
    unfold quote; eauto.
Qed.

(** The decoder reads the text of [v] back as [canon v]. *)
Lemma parse_render (v : json) : reads_back v.
Proof.
  induction v as [b | s | l IH | m IH] using json_induction;
    intros level fuel rest Hf; (destruct fuel as [|fuel]; [simpl in Hf; lia |]).
  - destruct b; reflexivity.
  - cbn [render]. unfold quote. cbn [app]. rewrite <- app_assoc.
    cbn [parse_value]. cbn [app].
    change (skip_ws (QUOTE :: escape s ++ QUOTE :: rest))
      with (QUOTE :: escape s ++ QUOTE :: rest).
    cbv iota. now rewrite parse_chars_escape.
  - destruct l as [|x l]; [reflexivity |].
    cbn [render canon]. rewrite <- app_comm_cons, <- !app_assoc.
    destruct (elements_start (S level) (","%char :: newline_indent (S level))
                x l (newline_indent level ++ ["]"%char] ++ rest))
      as (c & tl & Hc & Hstart).
    eapply (parse_value_array _ _ _ tl _ c); [reflexivity | | exact Hstart |].
    + rewrite skip_ws_newline_indent, Hc. now apply skip_ws_value.
    + apply parse_elements_render; [discriminate | exact IH |].
      cbn [size] in Hf. lia.
  - destruct m as [|kx m]; [reflexivity |].
    cbn [render canon]. rewrite !sort_items_map_values, map_map.
    rewrite <- app_comm_cons, <- !app_assoc.
    assert (Hne : sort_items (kx :: m) <> []).
    { intros Hnil. pose proof (sort_items_perm (kx :: m)) as Hp.
      rewrite Hnil in Hp. now apply Permutation_nil in Hp. }
    erewrite (map_ext _ (fun kv : string * json =>
                let '(k, x) := kv in
                quote k ++ text ": " ++ render (S level) x))
      by (now intros [k x]).
    destruct (sort_items (kx :: m)) as [|kx' m'] eqn:Hsort; [congruence |].
    destruct (members_start (S level) (","%char :: newline_indent (S level))
                kx' m' (newline_indent level ++ ["}"%char] ++ rest))
      as (tl & Htl).
    eapply (parse_value_object _ _ _ tl); [reflexivity | |].
    + rewrite skip_ws_newline_indent, Htl. reflexivity.
    + apply parse_members_render; [discriminate | |].
      * rewrite <- Hsort.
        eapply Permutation_Forall; [symmetry; apply sort_items_perm | exact IH].
      * rewrite <- Hsort.
        rewrite (list_sum_perm _ _ _ (sort_items_perm (kx :: m))).
        cbn [size] in Hf. apply Nat.succ_le_mono in Hf. exact Hf.
Qed.

Lemma list_sum_map_le {A : Type} (f g : A -> nat) (l : list A) :
  Forall (fun x => (f x <= g x)%nat) l ->
  (list_sum (map f l) <= list_sum (map g l))%nat.
Proof. induction 1; simpl; lia. Qed.

Lemma join_text_length (sep : list ascii) (ts : list (list ascii)) :
  (1 <= length sep)%nat ->
  (list_sum (map (fun t => S (length t)) ts) <= S (length (join_text sep ts)))%nat.
Proof.
  intros Hsep. induction ts as [|t [|t' ts] IH]; [simpl; lia | simpl; lia |].
  change (join_text sep (t :: t' :: ts)) with (t ++ sep ++ join_text sep (t' :: ts)).
  rewrite !length_app. cbn [map list_sum fold_right] in *. lia.
Qed.

(** The text of a value is at least as long as the fuel that reads it. *)
Lemma size_le_length (v : json) :
  forall level, (size v <= length (render level v))%nat.
Proof.
  induction v as [b | s | l IH | m IH] using json_induction; intros level.
  - destruct b; simpl; lia.
  - simpl. lia.
  - destruct l as [|x l]; [simpl; lia |].
    cbn [render size]. cbn [length]. rewrite !length_app. cbn [length].
    pose proof (join_text_length (","%char :: newline_indent (S level))
                  (map (render (S level)) (x :: l))) as Hj.
    rewrite map_map in Hj.
    assert (Hle : (list_sum (map (fun x => S (size x)) (x :: l))
                   <= list_sum (map (fun x => S (length (render (S level) x)))
                                    (x :: l)))%nat).
    { apply list_sum_map_le. eapply Forall_impl; [exact IH |].
      intros y Hy. simpl. specialize (Hy (S level)). lia. }
    cbn [length] in Hj. lia.
  - destruct m as [|kx m]; [simpl; lia |].
    cbn [render size]. rewrite sort_items_map_values, map_map.
    erewrite (map_ext _ (fun kv : string * json =>
                let '(k, x) := kv in
                quote k ++ text ": " ++ render (S level) x))
      by (now intros [k x]).
    match goal with
    | |- context [join_text ?sep ?l] =>
        pose proof (join_text_length sep l) as Hj; set (ts := l) in *
    end.
    assert (Hle : (list_sum (map (fun kv : string * json =>
                                    let '(_, x) := kv in S (size x)) (kx :: m))
                   <= list_sum (map (fun t => S (length t)) ts))%nat).
    { unfold ts. rewrite map_map.
      rewrite (list_sum_perm _ _ _ (sort_items_perm (kx :: m))).
      apply list_sum_map_le. eapply Forall_impl; [exact IH |].
      intros [k y] Hy. cbn [snd] in Hy. specialize (Hy (S level)).
      unfold quote. cbn [length]. rewrite !length_app. lia. }
    clearbody ts. cbn [length] in Hj. specialize (Hj ltac:(lia)).
    cbn [length]. rewrite !length_app. cbn [length].
    apply le_n_S. eapply Nat.le_trans; [exact Hle |].
    eapply Nat.le_trans; [exact Hj |].
    unfold newline_indent. cbn [length].
    generalize (length (join_text
      (","%char :: "010"%char :: repeat " "%char (INDENT * S level)) ts)).
    intros n. lia.
Qed.

Lemma loads_dumps (v : json) : loads (dumps v) = Some (canon v).
Proof.
  unfold loads, dumps. rewrite list_ascii_of_string_of_list_ascii.
  pose proof (parse_render v 0 (S (length (render 0 v))) []) as H.
  rewrite app_nil_r in H. rewrite H; [reflexivity |].
  pose proof (size_le_length v 0). lia.
Qed.

Lemma decode_todo_encode (t : task) :
  decode_todo (canon (encode_todo t)) = Some t.
Proof. destruct t as [[d|] t [p|]]; reflexivity. Qed.

Lemma decode_todos_encode (l : list task) :
  decode_todos (map canon (map encode_todo l)) = Some l.
Proof.
  induction l as [|t l IH]; [reflexivity |].
  cbn [map decode_todos]. now rewrite decode_todo_encode, IH.
Qed.

Lemma decode_data_encode (d : data) :
  decode_data (canon (encode_data d)) = Some d.
Proof.
  destruct d as [[n|] [ts|]]; try reflexivity.
  - change (decode_data (canon (encode_data (Data (Some n) (Some ts)))))
      with ((fun r => match r with Some ts' => Some (Data (Some n) ts') | None => None end)
              (Some <$> decode_todos (map canon (map encode_todo ts)))).
    now rewrite decode_todos_encode.
  - change (decode_data (canon (encode_data (Data None (Some ts)))))
      with ((fun r => match r with Some ts' => Some (Data None ts') | None => None end)
              (Some <$> decode_todos (map canon (map encode_todo ts)))).
    now rewrite decode_todos_encode.
Qed.

End JsonFacts.

(** What [update_project] writes, [json.load] reads back. *)
Lemma json_load_dump (d : data) : json_load (json_dump d) = Some d.
Proof.
  unfold json_load, json_dump. rewrite loads_dumps. apply decode_data_encode.
Qed.

(** ** The commands step by step *)

Section Runs.

Import Command.

Lemma bind_unfold {A B : Type} (m : M A) (f : A -> M B) (w : world) :
  bind m f w
  = match m w with
    | (Return a, w') => f a w'
    | (Raise e, w') => (Raise e, w')
    | (Exit code, w') => (Exit code, w')
    end.
Proof. reflexivity. Qed.

Lemma untouched_print (line : string) (w : world) : untouched w (snd (print line w)).
Proof. now split. Qed.

Lemma update_project_ok (new_data : data) (w : world) :
  write_error w = None ->
  update_project new_data w
  = (Return tt,
     World (argv w) (Some (json_dump new_data)) None (S (writes w)) (stdout w)).
Proof.
  intros H. unfold update_project, try_except, open_write. now rewrite H.
Qed.

Lemma update_project_failed (new_data : data) (w : world) (err : string) :
  write_error w = Some err ->
  update_project new_data w
  = (Exit 1,
     World (argv w) (disk w) (Some err) (S (writes w))
       (stdout w ++ ["Error writing to todos.json: " ++ err])).
Proof.
  intros H. unfold update_project, try_except, open_write. now rewrite H.
Qed.

Lemma get_command_attributes_pure (w : world) :
  exists x, get_command_attributes w = (Return x, w).
Proof.
  unfold get_command_attributes, bind, sys_argv.
  destruct (drop 2 (argv w)); eauto.
Qed.

Lemma filter_map_strip (l : list string) :
  map Py.strip (filter (fun title => Py.strip title <> "") l)
  = filter (fun piece => piece <> "") (map Py.strip l).
Proof.
  induction l as [|x l IH]; [reflexivity |].
  cbn [map]. rewrite !filter_cons.
  destruct (decide (Py.strip x <> "")); cbn [map]; now rewrite IH.
Qed.

(** [get_titles_input] on the input [input]: the pieces, or an error exit
    when there is none. *)
Lemma get_titles_input_eq (w : world) (input : string) :
  get_command_attributes w = (Return (Some input), w) -> input <> "" ->
  get_titles_input w
  = match pieces input with
    | [] => (Exit 1, snd (print "Error: No valid input after parsing" w))
    | items => (Return items, w)
    end.
Proof.
  intros H Hne. unfold get_titles_input, bind. rewrite H.
  destruct input as [|c input]; [congruence |].
  rewrite filter_map_strip. fold (pieces (String c input)).
  now destruct (pieces (String c input)).
Qed.

Lemma pieces_stripped (input : string) :
  Forall (fun piece => Py.strip piece = piece) (pieces input).
Proof.
  unfold pieces. apply Forall_forall. intros piece Hin.
  apply list_elem_of_filter in Hin as [_ Hin].
  rewrite list_elem_of_In in Hin. apply in_map_iff in Hin as (x & <- & _).
  apply strip_idempotent.
Qed.

Lemma get_titles_input_cases (w : world) :
  (exists items, get_titles_input w = (Return items, w)
                 /\ Forall (fun piece => Py.strip piece = piece) items)
  \/ (exists w', get_titles_input w = (Exit 1, w') /\ untouched w w').
Proof.
  destruct (get_command_attributes_pure w) as [[input|] H].
  - destruct input as [|c input].
    + right. unfold get_titles_input, bind. rewrite H. eexists. split; [reflexivity |].
      apply untouched_print.
    + rewrite (get_titles_input_eq w _ H) by discriminate.
      pose proof (pieces_stripped (String c input)) as Hs.
      destruct (pieces (String c input)); [right | left]; eauto using untouched_print.
  - right. unfold get_titles_input, bind. rewrite H. eexists. split; [reflexivity |].
    apply untouched_print.
Qed.

Lemma append_item_eq (new_todos : list task) (item : string) :
  Py.strip item = item ->
  AddCommand.append_item new_todos item = (new_todos ++ [new_task item])%list.
Proof.
  intros Hs.
  unfold AddCommand.append_item, AddCommand.parse_priority_from_input, new_task.
  destruct (Py.re_search item); [reflexivity | now rewrite Hs].
Qed.

Lemma fold_append_item (items : list string) :
  Forall (fun piece => Py.strip piece = piece) items ->
  forall todos,
    fold_left AddCommand.append_item items todos
    = (todos ++ map new_task items)%list.
Proof.
  induction 1 as [|item items Hs _ IH]; intros todos; simpl.
  - now rewrite app_nil_r.
  - rewrite IH, (append_item_eq _ _ Hs), <- app_assoc. reflexivity.
Qed.

Lemma update_todos_eq (todos : list task) (w : world) :
  AddCommand.update_todos todos w
  = match get_titles_input w with
    | (Return items, w') => (Return (todos ++ map new_task items)%list, w')
    | (Raise e, w') => (Raise e, w')
    | (Exit code, w') => (Exit code, w')
    end.
Proof.
  unfold AddCommand.update_todos, bind, ret.
  destruct (get_titles_input_cases w) as [(items & -> & Hs) | (w' & -> & _)];
    [|reflexivity].
  now rewrite (fold_append_item _ Hs).
Qed.

Lemma add_run_eq (w : world) :
  AddCommand.run w
  = match disk w with
    | None =>
        (Exit 0, snd (print "No project found. Create one with: todo init" w))
    | Some text =>
        match json_load text with
        | None =>
            (Exit 1, snd (print "An error has occured while adding todos." w))
        | Some d =>
            (new_todos <- AddCommand.update_todos (default [] (todos d)) ;;
             update_project
               (Data (Some (default UNTITLED_NAME (name d))) (Some new_todos)) ;;
             print "âœ“ Task(s) added successfully!") w
        end
    end.
Proof.
  unfold AddCommand.run, bind at 1. unfold try_except, bind at 1.
  unfold open_read, load.
  destruct (disk w) as [text|]; [|reflexivity].
  destruct (json_load text) as [d|]; reflexivity.
Qed.

(** [add] either has validated its input and goes on to write, or exits
    without a write. *)
Lemma add_run_cases (w : world) :
  (exists text d items,
     disk w = Some text /\ json_load text = Some d
     /\ get_titles_input w = (Return items, w)
     /\ AddCommand.run w
        = (update_project
             (Data (Some (default UNTITLED_NAME (name d)))
                   (Some (default [] (todos d) ++ map new_task items)%list)) ;;
           print "âœ“ Task(s) added successfully!") w)
  \/ (~ add_validated w
      /\ exists code w', AddCommand.run w = (Exit code, w') /\ untouched w w').
Proof.
  rewrite add_run_eq. destruct (disk w) as [text|] eqn:Hdisk.
  - destruct (json_load text) as [d|] eqn:Hload.
    + destruct (get_titles_input_cases w) as [(items & Hi & _) | (w' & Hi & Hw)].
      * left. exists text, d, items. repeat split; try assumption.
        unfold bind at 1. now rewrite update_todos_eq, Hi.
      * right. split.
        -- intros (text' & d' & items & _ & _ & Hi'). congruence.
        -- exists 1%Z, w'. split; [|assumption].
           unfold bind at 1. now rewrite update_todos_eq, Hi.
    + right. split.
      * intros (text' & d' & items & Hd & Hl & _). congruence.
      * eexists _, _. split; [reflexivity | apply untouched_print].
  - right. split.
    + intros (text' & d' & items & Hd & _). congruence.
    + eexists _, _. split; [reflexivity | apply untouched_print].
Qed.

Lemma parse_prio_input_cases (w : world) :
  (exists parsed, PrioCommand.parse_prio_input w = (Return parsed, w))
  \/ (exists w', PrioCommand.parse_prio_input w = (Exit 1, w')
                 /\ untouched w w').
Proof.
  unfold PrioCommand.parse_prio_input, bind.
  destruct (get_command_attributes_pure w) as [[input|] ->].
  - destruct input as [|c input];
      [right; eexists; split; [reflexivity | apply untouched_print] |].
    destruct (Py.rsplit1 " " (String c input)) as [|a [|b [|? ?]]];
      try (right; eexists; split; [reflexivity | apply untouched_print]).
    left. eexists. reflexivity.
  - right. eexists. split; [reflexivity | apply untouched_print].
Qed.

Lemma validate_priority_eq (priority : string) (w : world) :
  validate_priority priority w
  = if bool_decide (Py.lower priority ∈ PRIORITY_LEVELS)
    then (Return (Py.lower priority), w)
    else (Raise (ValueError ("Invalid priority: " ++ priority
                             ++ ". Must be one of: low, medium, high")), w).
Proof.
  unfold validate_priority.
  destruct (decide (Py.lower priority ∈ PRIORITY_LEVELS)) as [H|H].
  - rewrite (bool_decide_eq_true_2 _ H), bool_decide_eq_false_2; [reflexivity | tauto].
  - rewrite (bool_decide_eq_false_2 _ H), bool_decide_eq_true_2; [reflexivity | exact H].
Qed.

Lemma update_todo_priority_eq (todo : task) (new_priority : string) (w : world) :
  PrioCommand.update_todo_priority todo new_priority w
  = if bool_decide (Py.lower new_priority ∈ PRIORITY_LEVELS)
    then (Return (Task (done todo) (title todo) (Some (Py.lower new_priority))), w)
    else (Exit 1,
          snd (print ("Invalid priority: " ++ new_priority
                      ++ ". Must be one of: low, medium, high") w)).
Proof.
  unfold PrioCommand.update_todo_priority, bind, try_except.
  rewrite validate_priority_eq.
  now destruct (bool_decide (Py.lower new_priority ∈ PRIORITY_LEVELS)).
Qed.

Lemma prio_run_eq (w : world) :
  PrioCommand.run w
  = match disk w with
    | None =>
        (Exit 1,
         snd (print "Create one with: todo init"
                (snd (print "Error: Project file not found (todos.json)" w))))
    | Some text =>
        match json_load text with
        | None => (Exit 1, snd (print "Error reading project file" w))
        | Some d =>
            (parsed <- PrioCommand.parse_prio_input ;;
             let '(task_id, new_priority) := parsed in
             match PrioCommand.find_todo_by_identifier (default [] (todos d)) task_id with
             | None => print ("Task not found: " ++ task_id) ;; sys_exit 1
             | Some (list_index, todo) =>
                 updated_todo <- PrioCommand.update_todo_priority todo new_priority ;;
                 update_project
                   (Data (Some (default UNTITLED_NAME (name d)))
                         (Some (<[list_index := updated_todo]> (default [] (todos d))))) ;;
                 print ("✓ Priority changed: " ++ title todo
                        ++ " (" ++ Py.upper (default DEFAULT_PRIORITY (priority todo))
                        ++ " → " ++ Py.upper new_priority ++ ")")
             end) w
        end
    end.
Proof.
  unfold PrioCommand.run, bind at 1. unfold try_except, bind at 1.
  unfold open_read, load.
  destruct (disk w) as [text|]; [|reflexivity].
  destruct (json_load text) as [d|]; reflexivity.
Qed.

(** [prio] either has validated its input and goes on to write, or exits
    without a write. *)
Lemma prio_run_cases (w : world) :
  (exists text d task_id new_priority list_index todo,
     disk w = Some text /\ json_load text = Some d
     /\ PrioCommand.parse_prio_input w = (Return (task_id, new_priority), w)
     /\ PrioCommand.find_todo_by_identifier (default [] (todos d)) task_id
        = Some (list_index, todo)
     /\ Py.lower new_priority ∈ PRIORITY_LEVELS
     /\ PrioCommand.run w
        = (update_project
             (Data (Some (default UNTITLED_NAME (name d)))
                   (Some (<[list_index :=
                              Task (done todo) (title todo)
                                (Some (Py.lower new_priority))]>
                            (default [] (todos d))))) ;;
           print ("✓ Priority changed: " ++ title todo
                  ++ " (" ++ Py.upper (default DEFAULT_PRIORITY (priority todo))
                  ++ " → " ++ Py.upper new_priority ++ ")")) w)
  \/ (~ prio_validated w
      /\ exists code w', PrioCommand.run w = (Exit code, w') /\ untouched w w').
Proof.
  rewrite prio_run_eq. destruct (disk w) as [text|] eqn:Hdisk.
  2:{ right. split.
      - intros (text' & d' & ? & ? & ? & Hd & _). congruence.
      - eexists _, _. split; [reflexivity |]. now split. }
  destruct (json_load text) as [d|] eqn:Hload.
  2:{ right. split.
      - intros (text' & d' & ? & ? & ? & Hd & Hl & _). congruence.
      - eexists _, _. split; [reflexivity | apply untouched_print]. }
  rewrite bind_unfold.
  destruct (parse_prio_input_cases w) as [[[task_id new_priority] Hp] | (w' & Hp & Hw)].
  2:{ right. rewrite Hp. split.
      - intros (text' & d' & ? & ? & ? & _ & _ & Hp' & _). congruence.
      - eauto. }
  rewrite Hp.
  destruct (PrioCommand.find_todo_by_identifier (default [] (todos d)) task_id)
    as [[list_index todo]|] eqn:Hfind.
  2:{ right. split.
      - intros (text' & d' & ? & ? & ? & Hd & Hl & Hp' & Hf & _).
        rewrite Hdisk in Hd. injection Hd as <-.
        rewrite Hload in Hl. injection Hl as <-.
        rewrite Hp in Hp'. injection Hp' as <- <-. congruence.
      - eexists _, _. split; [reflexivity | apply untouched_print]. }
  rewrite bind_unfold, update_todo_priority_eq.
  destruct (decide (Py.lower new_priority ∈ PRIORITY_LEVELS)) as [Hv|Hv].
  - left. rewrite (bool_decide_eq_true_2 _ Hv).
    exists text, d, task_id, new_priority, list_index, todo.
    repeat split; assumption || reflexivity.
  - right. rewrite (bool_decide_eq_false_2 _ Hv). split.
    + intros (text' & d' & ? & ? & ? & Hd & Hl & Hp' & Hf & Hv').
      rewrite Hp in Hp'. injection Hp' as <- <-. contradiction.
    + eexists _, _. split; [reflexivity | apply untouched_print].
Qed.

End Runs.

(** ** The order of the keys *)

Section KeyOrder.

Import Json.

Lemma ltb_leb (a b : string) : String.ltb a b = negb (String.leb b a).
Proof.
  unfold String.ltb, String.leb. rewrite (String.compare_antisym b a).
  now destruct (String.compare a b).
Qed.

Lemma string_ltb_asym (a b : string) :
  String.ltb a b = true -> String.ltb b a = false.
Proof.
  rewrite !ltb_leb, negb_true_iff, negb_false_iff. intros H.
  destruct (String.leb_total a b) as [H1 | H1]; congruence.
Qed.

Lemma string_leb_trans (a b c : string) :
  String.ltb b a = false -> String.ltb c b = false -> String.ltb c a = false.
Proof.
  rewrite !ltb_leb, !negb_false_iff. intros H1 H2.
  apply Is_true_true. apply Is_true_true in H1, H2.
  exact (transitivity (R := String.le) H1 H2).
Qed.

Lemma strongly_sorted_map {A B : Type} (R : B -> B -> Prop) (f : A -> B)
    (l : list A) :
  StronglySorted (fun x y => R (f x) (f y)) l -> StronglySorted R (map f l).
Proof.
  induction 1 as [|x l Hs IH Hx]; simpl; constructor; [assumption |].
  apply Forall_map. exact Hx.
Qed.

(** [sort_keys=True]: the members are written in the order of their keys. *)
Lemma sort_items_sorted {A : Type} (m : list (string * A)) :
  StronglySorted (fun a b => String.leb a b = true) (map fst (sort_items m)).
Proof.
  apply strongly_sorted_map.
  eapply strongly_sorted_impl;
    [|apply (sorted_in_order String.ltb fst);
      [apply string_ltb_asym | apply string_leb_trans]].
  intros x y H. unfold in_order in H. rewrite ltb_leb in H.
  now apply negb_false_iff in H.
Qed.

Lemma canon_keys_sorted (v : json) : keys_sorted (canon v).
Proof.
  induction v as [b | s | l IH | m IH] using json_induction; try exact I.
  - cbn [canon keys_sorted]. induction IH as [|x l Hx _ IHl]; simpl; auto.
  - cbn [canon keys_sorted]. rewrite sort_items_map_values. split.
    + rewrite map_map.
      erewrite map_ext; [apply (sort_items_sorted m) |]. now intros [k x].
    + assert (Hall : Forall (fun kv => keys_sorted (canon (snd kv))) (sort_items m))
        by (eapply Permutation_Forall; [symmetry; apply sort_items_perm | exact IH]).
      induction Hall as [|[k x] m' Hx _ IHm]; simpl; auto.
Qed.

Lemma escape_char_high (c : ascii) :
  (128 <= nat_of_ascii c)%nat -> escape_char c = [c].
Proof.
  destruct c as [[] [] [] [] [] [] [] []]; intros H;
    solve [reflexivity | vm_compute in H; lia].
Qed.

End KeyOrder.

(** ** The claims on the commands *)

Section Commands.

Import Command.






Lemma read_project_file_ok (w : world) (text : string) (d : data) :
  disk w = Some text -> json_load text = Some d ->
  read_project_file w = (Return (Some d), w).
Proof.
  intros Hd Hl. unfold read_project_file, try_except, bind, open_read, load.
  now rewrite Hd, Hl.
Qed.

(** What is read from the file after a write that succeeded. *)
Lemma read_after_write (new_data : data) (w : world) :
  write_error w = None ->
  let w' := snd (update_project new_data w) in
  fst (update_project new_data w) = Return tt
  /\ disk w' = Some (json_dump new_data)
  /\ read_project_file w' = (Return (Some new_data), w').
Proof.
  intros E. rewrite (update_project_ok _ _ E). simpl.
  repeat split. apply (read_project_file_ok _ (json_dump new_data)); [reflexivity |].
  apply json_load_dump.
Qed.

Lemma find_todo_by_identifier_lookup (todos : list task) (identifier : string)
    (i : nat) (t : task) :
  PrioCommand.find_todo_by_identifier todos identifier = Some (i, t) ->
  todos !! i = Some t.
Proof.
  unfold PrioCommand.find_todo_by_identifier.
  destruct (Py.int identifier) as [n|].
  - destruct (bool_decide _); [|discriminate].
    destruct (todos !! Z.to_nat (n - 1)) as [t'|] eqn:E; [|discriminate].
    simpl. intros [= <- <-]. exact E.
  - intros H. apply find_title_Some in H as (k & -> & Hk & _). exact Hk.
Qed.

(** The state after a run of [prio] that passes all checks and writes. *)
Lemma prio_run_success (w : world) (text : string) (d : data)
    (task_id new_priority : string) (i : nat) (todo : task) :
  disk w = Some text -> json_load text = Some d ->
  PrioCommand.parse_prio_input w = (Return (task_id, new_priority), w) ->
  PrioCommand.find_todo_by_identifier (default [] (todos d)) task_id
  = Some (i, todo) ->
  Py.lower new_priority ∈ PRIORITY_LEVELS ->
  write_error w = None ->
  PrioCommand.run w
  = (Return tt,
     World (argv w)
       (Some (json_dump
                (Data (Some (default UNTITLED_NAME (name d)))
                      (Some (<[i := Task (done todo) (title todo)
                                      (Some (Py.lower new_priority))]>
                               (default [] (todos d)))))))
       None (S (writes w))
       (stdout w
        ++ ["✓ Priority changed: " ++ title todo
            ++ " (" ++ Py.upper (default DEFAULT_PRIORITY (priority todo))
            ++ " → " ++ Py.upper new_priority ++ ")"])).
Proof.
  intros Hd Hl Hp Hf Hv E.
  destruct (prio_run_cases w)
    as [(text' & d' & task_id' & new_priority' & i' & todo'
         & Hd' & Hl' & Hp' & Hf' & _ & Hrun) | (Hn & _)].
  - rewrite Hd in Hd'. injection Hd' as <-.
    rewrite Hl in Hl'. injection Hl' as <-.
    rewrite Hp in Hp'. injection Hp' as <- <-.
    rewrite Hf in Hf'. injection Hf' as <- <-.
    rewrite Hrun, bind_unfold, (update_project_ok _ _ E). reflexivity.
  - exfalso. apply Hn. now exists text, d, task_id, new_priority, (i, todo).
Qed.

(** The state after a run of [add] that passes all checks and writes. *)
Lemma add_run_success (w : world) (text : string) (d : data)
    (items : list string) :
  disk w = Some text -> json_load text = Some d ->
  get_titles_input w = (Return items, w) ->
  write_error w = None ->
  AddCommand.run w
  = (Return tt,
     World (argv w)
       (Some (json_dump
                (Data (Some (default UNTITLED_NAME (name d)))
                      (Some (default [] (todos d) ++ map new_task items)%list))))
       None (S (writes w))
       (stdout w ++ ["âœ“ Task(s) added successfully!"])).
Proof.
  intros Hd Hl Hi E.
  destruct (add_run_cases w)
    as [(text' & d' & items' & Hd' & Hl' & Hi' & Hrun) | (Hn & _)].
  - rewrite Hd in Hd'. injection Hd' as <-.
    rewrite Hl in Hl'. injection Hl' as <-.
    rewrite Hi in Hi'. injection Hi' as <-.
    rewrite Hrun, bind_unfold, (update_project_ok _ _ E). reflexivity.
  - exfalso. apply Hn. now exists text, d, items.
Qed.

Lemma get_project_name_ok (w : world) (text : string) (d : data) :
  disk w = Some text -> json_load text = Some d ->
  fst (get_project_name w)
  = Return (if String.eqb (default "" (name d)) "" then UNTITLED_NAME
            else default "" (name d)).
Proof.
  intros Hd Hl. unfold get_project_name. rewrite bind_unfold.
  now rewrite (read_project_file_ok _ _ _ Hd Hl).
Qed.

(** C5.  A run of [prio] that passes its checks and writes puts, at the
    position of the located task, that task with the new priority in lower
    case and its ['done'] and ['title'] as they were; every other position
    of the list, the length of the list and so its order are as before; and
    the project has the name it had.  This is the document read from the
    file after the run. *)
Theorem prio_changes_only_priority (w : world) (text : string) (d : data)
    (task_id new_priority : string) (i : nat) (todo : task) :
  disk w = Some text -> json_load text = Some d ->
  PrioCommand.parse_prio_input w = (Return (task_id, new_priority), w) ->
  PrioCommand.find_todo_by_identifier (default [] (todos d)) task_id
  = Some (i, todo) ->
  Py.lower new_priority ∈ PRIORITY_LEVELS ->
  write_error w = None ->
  exists w' name' todos',
    PrioCommand.run w = (Return tt, w')
    /\ read_project_file w'
       = (Return (Some (Data (Some name') (Some todos'))), w')
    /\ default [] (todos d) !! i = Some todo
    /\ todos' !! i
       = Some (Task (done todo) (title todo) (Some (Py.lower new_priority)))
    /\ (forall j, j <> i -> todos' !! j = default [] (todos d) !! j)
    /\ length todos' = length (default [] (todos d))
    /\ name' = default UNTITLED_NAME (name d)
    /\ fst (get_project_name w') = fst (get_project_name w).
Proof.
  intros Hd Hl Hp Hf Hv E.
  pose proof (find_todo_by_identifier_lookup _ _ _ _ Hf) as Hi.
  eexists _, _, _.
  split; [apply (prio_run_success w text d task_id new_priority i todo);
          assumption |].
  split; [eapply read_project_file_ok; [reflexivity | apply json_load_dump] |].
  split; [exact Hi |].
  split; [apply list_lookup_insert_eq; now apply lookup_lt_Some in Hi |].
  split; [intros j Hj; now apply list_lookup_insert_ne |].
  split; [apply length_insert |].
  split; [reflexivity |].
  erewrite get_project_name_ok; [|reflexivity | apply json_load_dump].
  rewrite (get_project_name_ok _ _ _ Hd Hl). simpl.
  destruct (name d) as [[|c n]|]; reflexivity.
Qed.

Lemma prio_changes_only_priority_witness :
  exists w' name' todos',
    PrioCommand.run
      (World ["todo"; "prio"; "Buy milk"; "LOW"]
         (Some (json_dump
                  (Data (Some "Home")
                     (Some [Task (Some true) "Buy milk" (Some "high");
                            Task None "Walk" None]))))
         None 0 [])
    = (Return tt, w')
    /\ read_project_file w'
       = (Return (Some (Data (Some name') (Some todos'))), w')
    /\ [Task (Some true) "Buy milk" (Some "high"); Task None "Walk" None] !! 0%nat
       = Some (Task (Some true) "Buy milk" (Some "high"))
    /\ todos' !! 0%nat = Some (Task (Some true) "Buy milk" (Some "low"))
    /\ (forall j, j <> 0%nat ->
        todos' !! j
        = [Task (Some true) "Buy milk" (Some "high"); Task None "Walk" None] !! j)
    /\ length todos' = 2%nat
    /\ name' = "Home"
    /\ fst (get_project_name w')
       = fst (get_project_name
                (World ["todo"; "prio"; "Buy milk"; "LOW"]
                   (Some (json_dump
                            (Data (Some "Home")
                               (Some [Task (Some true) "Buy milk" (Some "high");
                                      Task None "Walk" None]))))
                   None 0 [])).
Proof.
  apply (prio_changes_only_priority
           (World ["todo"; "prio"; "Buy milk"; "LOW"]
              (Some (json_dump
                       (Data (Some "Home")
                          (Some [Task (Some true) "Buy milk" (Some "high");
                                 Task None "Walk" None]))))
              None 0 [])
           (json_dump
              (Data (Some "Home")
                 (Some [Task (Some true) "Buy milk" (Some "high");
                        Task None "Walk" None])))
           (Data (Some "Home")
              (Some [Task (Some true) "Buy milk" (Some "high");
                     Task None "Walk" None]))
           "Buy milk" "LOW" 0
           (Task (Some true) "Buy milk" (Some "high"))).
  - reflexivity.
  - vm_compute. reflexivity.
  - vm_compute. reflexivity.
  - vm_compute. reflexivity.
  - vm_compute. repeat constructor.
  - reflexivity.
Defined.

Lemma get_todos_list_ok (w : world) (text : string) (d : data) :
  disk w = Some text -> json_load text = Some d ->
  get_todos_list w = (Return (map exposed (default [] (todos d))), w).
Proof.
  intros Hd Hl. unfold get_todos_list. rewrite bind_unfold.
  rewrite (read_project_file_ok _ _ _ Hd Hl). unfold ret. do 2 f_equal.
  apply map_ext. intros [dn t [p|]]; reflexivity.
Qed.

(** C7.  A record without ['priority'] reads as medium wherever it is shown:
    [get_todos_list] returns it with priority medium and leaves the process
    state, the file included, as it was; the sort gives it the key of its
    medium form; [prio] reports its old priority as MEDIUM.  After a run of
    [prio] every record that was not the located one, and after a run of
    [add] every record there was, is in the file as it was, still without
    ['priority']. *)
Theorem legacy_priority_is_medium (w : world) (text : string) (d : data) :
  disk w = Some text -> json_load text = Some d ->
  get_todos_list w = (Return (map exposed (default [] (todos d))), w)
  /\ (forall t, priority t = None ->
        priority (exposed t) = Some "medium"
        /\ sort_key t = sort_key (exposed t))
  /\ (forall task_id new_priority i todo,
        PrioCommand.parse_prio_input w = (Return (task_id, new_priority), w) ->
        PrioCommand.find_todo_by_identifier (default [] (todos d)) task_id
        = Some (i, todo) ->
        Py.lower new_priority ∈ PRIORITY_LEVELS ->
        write_error w = None ->
        exists w' name' todos',
          PrioCommand.run w = (Return tt, w')
          /\ read_project_file w'
             = (Return (Some (Data (Some name') (Some todos'))), w')
          /\ (priority todo = None ->
              stdout w'
              = (stdout w
                 ++ [("✓ Priority changed: " ++ title todo
                      ++ " (MEDIUM → " ++ Py.upper new_priority ++ ")")%string])%list)
          /\ (forall j t, j <> i -> default [] (todos d) !! j = Some t ->
              priority t = None -> todos' !! j = Some t))
  /\ (forall items,
        get_titles_input w = (Return items, w) ->
        write_error w = None ->
        exists w' name' todos',
          AddCommand.run w = (Return tt, w')
          /\ read_project_file w'
             = (Return (Some (Data (Some name') (Some todos'))), w')
          /\ (forall j t, default [] (todos d) !! j = Some t ->
              priority t = None -> todos' !! j = Some t)).
Proof.
  intros Hd Hl. split; [|split; [|split]].
  - now apply (get_todos_list_ok w text d).
  - intros t Ht. unfold exposed, sort_key. now rewrite Ht.
  - intros task_id new_priority i todo Hp Hf Hv E.
    eexists _, _, _.
    split; [apply (prio_run_success w text d task_id new_priority i todo);
            assumption |].
    split; [eapply read_project_file_ok; [reflexivity | apply json_load_dump] |].
    split.
    + intros Ht. simpl. now rewrite Ht.
    + intros j t Hj Ht _. now rewrite list_lookup_insert_ne.
  - intros items Hi E.
    eexists _, _, _.
    split; [apply (add_run_success w text d items); assumption |].
    split; [eapply read_project_file_ok; [reflexivity | apply json_load_dump] |].
    intros j t Ht _. now apply lookup_app_l_Some.
Qed.

Lemma legacy_priority_is_medium_witness :
  get_todos_list
    (World ["todo"; "list"]
       (Some (json_dump (Data (Some "Home") (Some [Task None "Walk" None]))))
       None 0 [])
  = (Return [Task None "Walk" (Some "medium")],
     World ["todo"; "list"]
       (Some (json_dump (Data (Some "Home") (Some [Task None "Walk" None]))))
       None 0 []).
Proof.
  apply (legacy_priority_is_medium
           (World ["todo"; "list"]
              (Some (json_dump (Data (Some "Home") (Some [Task None "Walk" None]))))
              None 0 [])
           (json_dump (Data (Some "Home") (Some [Task None "Walk" None])))
           (Data (Some "Home") (Some [Task None "Walk" None]))).
  - reflexivity.
  - vm_compute. reflexivity.
Defined.



(** C1 fails on the code: [add] does not validate the value of an inline
    priority flag.  On the input [Buy milk --priority=urgent] the priority
    policy rejects [urgent], and [create_todo_item] would exit on it, but
    [add] succeeds and the file then holds a task of priority [urgent]. *)
Theorem add_persists_unvalidated_priority :
  let w := World ["todo"; "add"; "Buy milk --priority=urgent"]
             (Some (json_dump (Data (Some "Home") (Some [])))) None 0 [] in
  fst (validate_priority "urgent" w)
  = Raise (ValueError "Invalid priority: urgent. Must be one of: low, medium, high")
  /\ fst (create_todo_item "Buy milk" "urgent" w) = Exit 1
  /\ fst (AddCommand.run w) = Return tt
  /\ fst (read_project_file (snd (AddCommand.run w)))
     = Return (Some (Data (Some "Home")
                       (Some [Task (Some false) "Buy milk" (Some "urgent")]))).
Proof. vm_compute. repeat split. Qed.

End Commands.

(** ** Saving and loading *)

Section RoundTrip.

Import Command.

(** C9.  What [update_project] writes, [read_project_file] reads back as
    the same document, field for field, a task without ['priority'] still
    without it (only [get_todos_list] shows it as medium, and leaves the
    file alone; writing what it shows and loading again shows the same);
    writing the document read gives the same bytes again.  In
    the text written the members of every object stand in the order of
    their keys, every level is indented by four spaces more, and bytes
    from 128 up, the non-ASCII characters, are written as they are. *)
Theorem save_load_round_trip (P : data) (w : world) :
  write_error w = None ->
  let saved := snd (update_project P w) in
  disk saved = Some (json_dump P)
  /\ read_project_file saved = (Return (Some P), saved)
  /\ (forall d, fst (read_project_file saved) = Return (Some d) ->
        d = P /\ disk (snd (update_project d saved)) = disk saved)
  /\ get_todos_list saved = (Return (map exposed (default [] (todos P))), saved)
  /\ fst (get_todos_list
            (snd (update_project
                    (Data (name P) (Some (map exposed (default [] (todos P)))))
                    saved)))
     = Return (map exposed (default [] (todos P)))
  /\ Json.loads (json_dump P) = Some (Json.canon (Json.encode_data P))
  /\ Json.keys_sorted (Json.canon (Json.encode_data P))
  /\ (forall level,
        Json.newline_indent level = "010"%char :: repeat " "%char (4 * level))
  /\ (forall c, (128 <= nat_of_ascii c)%nat -> Json.escape_char c = [c])
  /\ json_dump example_project = example_text
  /\ json_dump (Data (Some "Café") None)
     = lines ["{"; "    " ++ quoted "name" ++ ": " ++ quoted "Café"; "}"].
Proof.
  intros E saved.
  destruct (read_after_write P w E) as (_ & Hdisk & Hread). fold saved in Hdisk, Hread.
  assert (Es : write_error saved = None)
    by (unfold saved; now rewrite (update_project_ok _ _ E)).
  split; [exact Hdisk |].
  split; [exact Hread |].
  split.
  { intros d Hd. rewrite Hread in Hd. injection Hd as <-. split; [reflexivity |].
    rewrite (update_project_ok _ _ Es). simpl. now rewrite Hdisk. }
  split.
  { exact (get_todos_list_ok saved (json_dump P) P Hdisk (json_load_dump P)). }
  split.
  { rewrite (update_project_ok _ _ Es).
    erewrite get_todos_list_ok; [|reflexivity | apply json_load_dump].
    simpl. f_equal. rewrite map_map. apply map_ext. now intros [dn t [p|]]. }
  split; [apply loads_dumps |].
  split; [apply canon_keys_sorted |].
  split; [reflexivity |].
  split; [apply escape_char_high |].
  split; reflexivity.
Qed.

Lemma save_load_round_trip_witness :
  read_project_file
    (snd (update_project
            (Data (Some "Home") (Some [Task (Some true) "Walk" None]))
            (World ["todo"] None None 0 [])))
  = (Return (Some (Data (Some "Home") (Some [Task (Some true) "Walk" None]))),
     snd (update_project
            (Data (Some "Home") (Some [Task (Some true) "Walk" None]))
            (World ["todo"] None None 0 []))).
Proof.
  destruct (save_load_round_trip
              (Data (Some "Home") (Some [Task (Some true) "Walk" None]))
              (World ["todo"] None None 0 []) eq_refl) as (_ & H & _).
  exact H.
Defined.

End RoundTrip.

(** * Further properties of the code *)

(** ** Searching by title *)

Section Search.

Import Command PrioCommand.
















End Search.

(** ** Sorting again *)

Section SortAgain.

Import Command.

(** A list in the order of its keys is left as it is. *)
Lemma sorted_of_sorted {A K : Type} (lt : K -> K -> bool) (key : A -> K)
    (l : list A) :
  StronglySorted (in_order lt key) l -> Py.sorted lt key l = l.
Proof.
  induction 1 as [|x l Hs IH Hx]; [reflexivity |].
  simpl. rewrite IH. destruct l as [|y l]; [reflexivity |].
  simpl. apply Forall_inv in Hx. unfold in_order in Hx. now rewrite Hx.
Qed.

Lemma insert_by_completion (key : task -> bool) (x : task)
    (incomplete complete : list task) :
  Forall (fun t => key t = false) incomplete ->
  Forall (fun t => key t = true) complete ->
  Py.insert_sorted bool_lt key x (incomplete ++ complete)
  = if key x then (incomplete ++ x :: complete)%list
    else (x :: incomplete ++ complete)%list.
Proof.
  intros Hi Hc. induction Hi as [|y incomplete Hy Hi IH]; simpl.
  - destruct Hc as [|z complete Hz Hc]; simpl; [now destruct (key x) |].
    rewrite Hz. unfold bool_lt. simpl. now destruct (key x).
  - rewrite Hy. unfold bool_lt at 1. simpl.
    destruct (key x) eqn:E; [|reflexivity].
    rewrite IH. reflexivity.
Qed.

(** X3.  [sort_todos_by_completion] puts the tasks that are not done, in the
    order they had, before the tasks that are done, in the order they had;
    a task without ['done'] counts as not done. *)
Theorem sort_todos_by_completion_spec (todos : list task) :
  sort_todos_by_completion todos
  = (filter (fun t => default false (done t) = false) todos
     ++ filter (fun t => default false (done t) = true) todos)%list.
Proof.
  unfold sort_todos_by_completion.
  induction todos as [|x l IH]; [reflexivity |].
  simpl. rewrite IH, insert_by_completion.
  - rewrite !filter_cons. destruct (default false (done x)) eqn:E.
    + rewrite decide_False by discriminate. now rewrite decide_True.
    + rewrite decide_True by reflexivity. now rewrite decide_False.
  - apply Forall_forall. intros t Ht. now apply list_elem_of_filter in Ht.
  - apply Forall_forall. intros t Ht. now apply list_elem_of_filter in Ht.
Qed.

Lemma key_lt_done (a b : bool * nat) :
  key_lt b a = false -> bool_lt (fst b) (fst a) = false.
Proof.
  destruct a as [[] n], b as [[] m]; unfold key_lt, bool_lt; simpl;
    try reflexivity; discriminate.
Qed.

(** X4.  Sorting by priority a list sorted by priority changes nothing, and
    neither does sorting it by completion: the order by priority is an
    order by completion too. *)
Theorem sort_todos_by_priority_idempotent (todos : list task) :
  sort_todos_by_priority (sort_todos_by_priority todos)
  = sort_todos_by_priority todos
  /\ sort_todos_by_completion (sort_todos_by_priority todos)
     = sort_todos_by_priority todos
  /\ sort_todos_by_completion (sort_todos_by_completion todos)
     = sort_todos_by_completion todos.
Proof.
  assert (Hs : StronglySorted (in_order key_lt sort_key)
                 (sort_todos_by_priority todos))
    by (apply sorted_in_order; [apply key_lt_asym | apply key_le_trans]).
  split; [now apply sorted_of_sorted |split].
  - apply sorted_of_sorted.
    eapply strongly_sorted_impl; [|exact Hs].
    intros x y H. unfold in_order in *. now apply key_lt_done in H.
  - apply sorted_of_sorted. apply sorted_in_order.
    + intros [] []; unfold bool_lt; simpl; congruence.
    + intros [] [] []; unfold bool_lt; simpl; congruence.
Qed.

End SortAgain.

(** ** Validation *)

Section ValidationAgain.

Import Command.

Lemma lower_level (p : string) : p ∈ PRIORITY_LEVELS -> Py.lower p = p.
Proof.
  unfold PRIORITY_LEVELS. intros H.
  repeat (apply elem_of_cons in H as [-> | H]; [reflexivity |]).
  now apply elem_of_nil in H.
Qed.

(** X5.  What [validate_priority] returns is one of the three levels, and it
    accepts it again unchanged; it never changes the process state. *)
Theorem validate_priority_fixed_point (priority : string) (w : world) :
  forall r w', validate_priority priority w = (r, w') ->
    w' = w
    /\ (forall validated, r = Return validated ->
          validated ∈ PRIORITY_LEVELS
          /\ validate_priority validated w = (Return validated, w)).
Proof.
  intros r w'. rewrite validate_priority_eq.
  destruct (decide (Py.lower priority ∈ PRIORITY_LEVELS)) as [H|H].
  - rewrite (bool_decide_eq_true_2 _ H). intros [= <- <-].
    split; [reflexivity |]. intros validated [= <-]. split; [exact H |].
    rewrite validate_priority_eq, (lower_level _ H).
    now rewrite (bool_decide_eq_true_2 _ H).
  - rewrite (bool_decide_eq_false_2 _ H). intros [= <- <-].
    split; [reflexivity | discriminate].
Qed.

Lemma validate_priority_fixed_point_witness :
  "high" ∈ PRIORITY_LEVELS
  /\ validate_priority "high" (World [] None None 0 [])
     = (Return "high", World [] None None 0 []).
Proof.
  destruct (validate_priority_fixed_point "HIGH" (World [] None None 0 [])
              (Return "high") (World [] None None 0 []) eq_refl) as (_ & H).
  exact (H "high" eq_refl).
Defined.

Lemma validate_todo_item_eq (todo : task) (w : world) :
  validate_todo_item todo w
  = match done todo with
    | None => (Raise (ValueError "Todo missing required field: done"), w)
    | Some _ =>
        match priority todo with
        | None => (Return true, w)
        | Some p =>
            if bool_decide (Py.lower p ∈ PRIORITY_LEVELS) then (Return true, w)
            else (Raise (ValueError ("Invalid priority: " ++ p
                                     ++ ". Must be one of: low, medium, high")),
                  w)
        end
    end.
Proof.
  unfold validate_todo_item. destruct (done todo); [|reflexivity].
  destruct (priority todo) as [p|]; [|reflexivity].
  rewrite bind_unfold, validate_priority_eq.
  now destruct (bool_decide (Py.lower p ∈ PRIORITY_LEVELS)).
Qed.


(** X7.  [create_todo_item] on a priority that is one of the levels, in any
    letter case, returns the task with that title, not done, the priority
    in lower case, and leaves the process state as it was; on any other
    priority it prints the error and exits with status 1 without a write.
    The task it returns passes [validate_todo_item]. *)
Theorem create_todo_item_spec (title priority : string) (w : world) :
  (Py.lower priority ∈ PRIORITY_LEVELS ->
   create_todo_item title priority w
   = (Return (Task (Some false) title (Some (Py.lower priority))), w))
  /\ (Py.lower priority ∉ PRIORITY_LEVELS ->
      create_todo_item title priority w
      = (Exit 1,
         snd (print ("Invalid priority: " ++ priority
                     ++ ". Must be one of: low, medium, high") w)))
  /\ (forall r w', create_todo_item title priority w = (r, w') ->
        untouched w w'
        /\ forall todo, r = Return todo ->
             validate_todo_item todo w' = (Return true, w')).
Proof.
  assert (Heq : create_todo_item title priority w
                = if bool_decide (Py.lower priority ∈ PRIORITY_LEVELS)
                  then (Return (Task (Some false) title
                                  (Some (Py.lower priority))), w)
                  else (Exit 1,
                        snd (print ("Invalid priority: " ++ priority
                                    ++ ". Must be one of: low, medium, high")
                               w))).
  { unfold create_todo_item. rewrite bind_unfold. unfold try_except.
    rewrite validate_priority_eq.
    now destruct (bool_decide (Py.lower priority ∈ PRIORITY_LEVELS)). }
  rewrite Heq. split; [|split].
  - intros H. now rewrite (bool_decide_eq_true_2 _ H).
  - intros H. now rewrite (bool_decide_eq_false_2 _ H).
  - intros r w'.
    destruct (decide (Py.lower priority ∈ PRIORITY_LEVELS)) as [H|H].
    + rewrite (bool_decide_eq_true_2 _ H). intros [= <- <-].
      split; [now split |]. intros todo [= <-].
      rewrite validate_todo_item_eq. simpl.
      rewrite (lower_level _ H). now rewrite (bool_decide_eq_true_2 _ H).
    + rewrite (bool_decide_eq_false_2 _ H). intros [= <- <-].
      split; [apply untouched_print | discriminate].
Qed.

Lemma create_todo_item_spec_witness :
  create_todo_item "Buy milk" "HIGH" (World [] None None 0 [])
  = (Return (Task (Some false) "Buy milk" (Some "high")), World [] None None 0 [])
  /\ fst (create_todo_item "Buy milk" "urgent" (World [] None None 0 []))
     = Exit 1.
Proof.
  destruct (create_todo_item_spec "Buy milk" "HIGH" (World [] None None 0 []))
    as (Hok & _).
  destruct (create_todo_item_spec "Buy milk" "urgent" (World [] None None 0 []))
    as (_ & Herr & _).
  split.
  - apply Hok. vm_compute. repeat constructor.
  - rewrite Herr; [reflexivity |]. vm_compute. intros H.
    repeat (apply elem_of_cons in H as [H | H]; [discriminate H |]).
    now apply elem_of_nil in H.
Defined.

End ValidationAgain.

(** ** Reading the command line *)

Section Inputs.

Import Command.

Lemma string_forall_rev (p : ascii -> bool) (s : string) :
  string_forall p (String.rev s) = string_forall p s.
Proof.
  unfold String.rev. rewrite string_forall_rev_app. simpl.
  apply andb_true_r.
Qed.












End Inputs.

(** ** Splitting identifier and priority, and the priority flag *)

Section Parsing.

Import Command.

Lemma rev_append (s1 s2 : string) :
  String.rev (s1 ++ s2) = String.rev s2 ++ String.rev s1.
Proof.
  induction s1 as [|c s1 IH].
  - change ("" ++ s2) with s2. now rewrite append_empty_r.
  - rewrite append_cons, !rev_cons, IH, append_assoc. reflexivity.
Qed.

Lemma partition_first (sep : ascii) (x y : string) :
  string_forall (fun c => negb (Ascii.eqb c sep)) x = true ->
  Py.partition sep (x ++ String sep y) = Some (x, y).
Proof.
  induction x as [|c x IH]; intros H.
  - change ("" ++ String sep y) with (String sep y). simpl.
    now rewrite Ascii.eqb_refl.
  - cbn [string_forall] in H. apply andb_true_iff in H as [Hc H].
    apply negb_true_iff in Hc.
    rewrite append_cons. cbn [Py.partition]. now rewrite Hc, (IH H).
Qed.

Lemma partition_none (sep : ascii) (x : string) :
  string_forall (fun c => negb (Ascii.eqb c sep)) x = true ->
  Py.partition sep x = None.
Proof.
  induction x as [|c x IH]; intros H; [reflexivity |].
  cbn [string_forall] in H. apply andb_true_iff in H as [Hc H].
  apply negb_true_iff in Hc. cbn [Py.partition]. now rewrite Hc, (IH H).
Qed.

(** [rsplit] splits at the last separator. *)
Lemma rsplit1_last (sep : ascii) (a b : string) :
  string_forall (fun c => negb (Ascii.eqb c sep)) b = true ->
  Py.rsplit1 sep (a ++ String sep b) = [a; b].
Proof.
  intros H. unfold Py.rsplit1.
  rewrite rev_append, rev_cons, append_assoc.
  change (String sep "" ++ String.rev a) with (String sep (String.rev a)).
  rewrite partition_first by now rewrite string_forall_rev.
  now rewrite !rev_involutive.
Qed.

Lemma rsplit1_one (sep : ascii) (s : string) :
  string_forall (fun c => negb (Ascii.eqb c sep)) s = true ->
  Py.rsplit1 sep s = [s].
Proof.
  intros H. unfold Py.rsplit1.
  now rewrite partition_none by now rewrite string_forall_rev.
Qed.

(** X10.  The priority is what stands after the last space of the arguments and
    the identifier is all that stands before it, both trimmed: an
    identifier may have spaces in it.  Arguments without a space are
    refused with exit status 1, and nothing is written. *)
Theorem parse_prio_input_spec (w : world) :
  (forall identifier priority,
     get_command_attributes w
     = (Return (Some (identifier ++ String " " priority)), w) ->
     string_forall (fun c => negb (Ascii.eqb c " ")) priority = true ->
     PrioCommand.parse_prio_input w
     = (Return (Py.strip identifier, Py.strip priority), w))
  /\ (forall attributes,
        get_command_attributes w = (Return (Some attributes), w) ->
        string_forall (fun c => negb (Ascii.eqb c " ")) attributes = true ->
        exists w', PrioCommand.parse_prio_input w = (Exit 1, w')
                   /\ untouched w w')
  /\ (get_command_attributes w = (Return None, w) ->
      exists w', PrioCommand.parse_prio_input w = (Exit 1, w')
                 /\ untouched w w').
Proof.
  unfold PrioCommand.parse_prio_input. split; [|split].
  - intros identifier priority Hattr Hp. rewrite bind_unfold, Hattr.
    rewrite (rsplit1_last _ _ _ Hp).
    destruct identifier; reflexivity.
  - intros attributes Hattr Hs. rewrite bind_unfold, Hattr.
    rewrite (rsplit1_one _ _ Hs).
    destruct attributes; eexists; (split; [reflexivity | apply untouched_print]).
  - intros Hattr. rewrite bind_unfold, Hattr.
    eexists; (split; [reflexivity | apply untouched_print]).
Qed.

Lemma parse_prio_input_spec_witness :
  PrioCommand.parse_prio_input
    (World ["todo"; "prio"; "Buy"; "milk"; "low"] None None 0 [])
  = (Return ("Buy milk", "low"),
     World ["todo"; "prio"; "Buy"; "milk"; "low"] None None 0 []).
Proof.
  destruct (parse_prio_input_spec
              (World ["todo"; "prio"; "Buy"; "milk"; "low"] None None 0 []))
    as (H & _).
  apply (H "Buy milk" "low"); reflexivity.
Defined.










End Parsing.

(** ** The commands one after the other *)

Section Composition.

Import Command.

Lemma split_not_nil (sep : ascii) (s : string) : Py.split sep s <> [].
Proof.
  destruct s as [|c s]; [discriminate |].
  cbn [Py.split]. destruct (Ascii.eqb c sep); [discriminate |].
  destruct (Py.split sep s); discriminate.
Qed.

Lemma join_cons (sep s : string) (x : string) (rest : list string) :
  Py.join sep (s :: x :: rest) = s ++ sep ++ Py.join sep (x :: rest).
Proof. reflexivity. Qed.

(** Splitting at a character and joining with it gives the text back. *)
Lemma join_split (sep : ascii) (s : string) :
  Py.join (String sep "") (Py.split sep s) = s.
Proof.
  induction s as [|c s IH]; [reflexivity |].
  cbn [Py.split]. destruct (Ascii.eqb c sep) eqn:E.
  - apply Ascii.eqb_eq in E as ->.
    pose proof (split_not_nil sep s) as Hne.
    destruct (Py.split sep s) as [|x rest]; [congruence |].
    rewrite join_cons, IH. reflexivity.
  - pose proof (split_not_nil sep s) as Hne.
    destruct (Py.split sep s) as [|x rest]; [congruence |].
    destruct rest as [|y rest].
    + simpl in IH. now rewrite <- IH.
    + rewrite join_cons. rewrite join_cons in IH. now rewrite <- IH.
Qed.

Lemma get_command_attributes_eq (w : world) :
  get_command_attributes w
  = (Return match drop 2 (argv w) with
            | [] => None
            | attributes => Some (Py.join " " attributes)
            end, w).
Proof.
  unfold get_command_attributes. rewrite bind_unfold. unfold sys_argv.
  now destruct (drop 2 (argv w)).
Qed.

(** X12.  The arguments after the command name are handed on as one text, the
    words joined by single spaces: a text typed as one quoted argument and
    the same text typed as words separated by single spaces are the same
    input.  There is no input exactly when no argument follows the command
    name.  The state is not touched. *)
Theorem get_command_attributes_spec (w : world) :
  (get_command_attributes w = (Return None, w)
   <-> (length (argv w) <= 2)%nat)
  /\ (forall prog cmd s,
        argv w = [prog; cmd; s] ->
        get_command_attributes w = (Return (Some s), w))
  /\ (forall prog cmd s,
        argv w = prog :: cmd :: Py.split " " s ->
        get_command_attributes w = (Return (Some s), w))
  /\ (forall r w', get_command_attributes w = (r, w') -> w' = w).
Proof.
  rewrite get_command_attributes_eq. split; [|split; [|split]].
  - destruct (argv w) as [|a [|b [|c l]]]; simpl; split;
      try reflexivity; try lia; try discriminate; intros; lia.
  - intros prog cmd s ->. reflexivity.
  - intros prog cmd s ->. cbn [drop].
    pose proof (split_not_nil " " s) as Hne.
    pose proof (join_split " " s) as Hj.
    destruct (Py.split " " s) as [|x rest]; [congruence |].
    rewrite drop_0. now rewrite Hj.
  - now intros r w' [= _ <-].
Qed.

Lemma parse_prio_input_argv (w w1 : world) (parsed : string * string) :
  argv w1 = argv w ->
  PrioCommand.parse_prio_input w = (Return parsed, w) ->
  PrioCommand.parse_prio_input w1 = (Return parsed, w1).
Proof.
  intros Hargv. unfold PrioCommand.parse_prio_input.
  rewrite !bind_unfold, !get_command_attributes_eq, Hargv.
  destruct (drop 2 (argv w)) as [|a l]; [discriminate |].
  destruct (Py.join " " (a :: l)) as [|c s]; [discriminate |].
  destruct (Py.rsplit1 " " (String c s)) as [|x [|y [|z r]]];
    try discriminate.
  unfold ret. now intros [= <-].
Qed.

Lemma find_by_position (todos : list task) (i : nat) (t : task) :
  todos !! i = Some t ->
  PrioCommand.find_todo_by_identifier todos (Py.str (S i)) = Some (i, t).
Proof.
  intros H. unfold PrioCommand.find_todo_by_identifier. rewrite int_str.
  pose proof (lookup_lt_Some _ _ _ H) as Hlt.
  rewrite bool_decide_true by lia.
  replace (Z.to_nat (Z.of_nat (S i) - 1)) with i by lia.
  now rewrite H.
Qed.

Lemma find_after_update (todos : list task) (identifier : string) (i : nat)
    (t t' : task) :
  PrioCommand.find_todo_by_identifier todos identifier = Some (i, t) ->
  title t' = title t ->
  PrioCommand.find_todo_by_identifier (<[i := t']> todos) identifier
  = Some (i, t').
Proof.
  intros H Ht. pose proof (find_todo_by_identifier_lookup _ _ _ _ H) as Hi.
  pose proof (lookup_lt_Some _ _ _ Hi) as Hlt.
  revert H. unfold PrioCommand.find_todo_by_identifier.
  destruct (Py.int identifier) as [n|].
  - rewrite length_insert. case_bool_decide; [|discriminate].
    destruct (todos !! Z.to_nat (n - 1)) as [x|] eqn:E; [|discriminate].
    simpl. intros [= <- <-].
    now rewrite list_lookup_insert_eq by exact Hlt.
  - intros H. apply (find_title_Some _ _ 0%nat) in H as (k & -> & Hk & Hid & Hno).
    apply (find_title_Some _ _ 0%nat). exists k. simpl in *.
    split; [reflexivity |].
    split; [now rewrite list_lookup_insert_eq by exact Hlt |].
    split; [congruence |].
    intros j x Hj Hx. rewrite list_lookup_insert_ne in Hx by lia.
    exact (Hno j x Hj Hx).
Qed.

Lemma prio_run_Return (w w1 : world) :
  PrioCommand.run w = (Return tt, w1) ->
  exists text d task_id new_priority i todo,
    disk w = Some text /\ json_load text = Some d
    /\ PrioCommand.parse_prio_input w = (Return (task_id, new_priority), w)
    /\ PrioCommand.find_todo_by_identifier (default [] (todos d)) task_id
       = Some (i, todo)
    /\ Py.lower new_priority ∈ PRIORITY_LEVELS
    /\ write_error w = None.
Proof.
  intros Hrun.
  destruct (prio_run_cases w)
    as [(text & d & task_id & new_priority & i & todo
         & Hdisk & Hload & Hparse & Hfind & Hp & Heq)
       | (_ & code & w' & Heq & _)]; [|congruence].
  exists text, d, task_id, new_priority, i, todo.
  repeat (split; [assumption |]).
  destruct (write_error w) as [err|] eqn:E; [|reflexivity].
  rewrite Heq, bind_unfold, (update_project_failed _ _ _ E) in Hrun.
  discriminate Hrun.
Qed.

Lemma add_run_Return (w w1 : world) :
  AddCommand.run w = (Return tt, w1) ->
  exists text d items,
    disk w = Some text /\ json_load text = Some d
    /\ get_titles_input w = (Return items, w)
    /\ write_error w = None.
Proof.
  intros Hrun.
  destruct (add_run_cases w)
    as [(text & d & items & Hdisk & Hload & Hitems & Heq)
       | (_ & code & w' & Heq & _)]; [|congruence].
  exists text, d, items. repeat (split; [assumption |]).
  destruct (write_error w) as [err|] eqn:E; [|reflexivity].
  rewrite Heq, bind_unfold, (update_project_failed _ _ _ E) in Hrun.
  discriminate Hrun.
Qed.

(** X13.  Changing a priority twice is changing it once: a [prio] command that
    succeeded succeeds again with the same arguments, and writes the very
    text the first run wrote. *)
Theorem prio_run_idempotent (w w1 : world) :
  PrioCommand.run w = (Return tt, w1) ->
  exists w2,
    PrioCommand.run w1 = (Return tt, w2)
    /\ disk w2 = disk w1
    /\ writes w2 = S (writes w1).
Proof.
  intros Hrun.
  destruct (prio_run_Return _ _ Hrun)
    as (text & d & task_id & new_priority & i & todo
        & Hdisk & Hload & Hparse & Hfind & Hp & Hw).
  rewrite (prio_run_success _ _ _ _ _ _ _ Hdisk Hload Hparse Hfind Hp Hw)
    in Hrun.
  injection Hrun as <-.
  set (t' := Task (done todo) (title todo) (Some (Py.lower new_priority))).
  set (D1 := Data (Some (default UNTITLED_NAME (name d)))
               (Some (<[i := t']> (default [] (todos d))))).
  set (w1 := World _ _ _ _ _).
  assert (PrioCommand.parse_prio_input w1 = (Return (task_id, new_priority), w1))
    as Hparse1 by (apply (parse_prio_input_argv w); [reflexivity | exact Hparse]).
  assert (PrioCommand.find_todo_by_identifier (default [] (todos D1)) task_id
          = Some (i, t')) as Hfind1
    by (apply (find_after_update _ _ _ todo); [exact Hfind | reflexivity]).
  eexists. split.
  - apply (prio_run_success w1 (json_dump D1) D1 task_id new_priority i t');
      [reflexivity | apply json_load_dump | exact Hparse1 | exact Hfind1
      | exact Hp | reflexivity].
  - split; [|reflexivity]. simpl. do 4 f_equal.
    apply list_insert_insert_eq.
Qed.

Lemma prio_run_idempotent_witness :
  exists w2,
    PrioCommand.run
      (World ["todo"; "prio"; "1"; "HIGH"]
         (Some (json_dump (Data (Some "Home")
                             (Some [Task (Some false) "Walk" (Some "high")]))))
         None 1
         ["✓ Priority changed: Walk (MEDIUM → HIGH)"])
    = (Return tt, w2)
    /\ disk w2 = Some (json_dump (Data (Some "Home")
                                    (Some [Task (Some false) "Walk" (Some "high")])))
    /\ writes w2 = 2%nat.
Proof.
  apply (prio_run_idempotent
           (World ["todo"; "prio"; "1"; "HIGH"]
              (Some (json_dump (Data (Some "Home")
                                  (Some [Task (Some false) "Walk" None]))))
              None 0 [])).
  vm_compute. reflexivity.
Defined.

(** X14.  Adding renumbers nothing: after an [add] that succeeded, the project
    file holds the tasks there were and the new ones after them, so every
    task there was is still found under its number, and the new tasks have
    the numbers that follow, in the order of the input. *)
Theorem add_keeps_positions (w w1 : world) :
  AddCommand.run w = (Return tt, w1) ->
  exists text d items new_todos,
    disk w = Some text /\ json_load text = Some d
    /\ get_titles_input w = (Return items, w)
    /\ read_project_file w1
       = (Return (Some (Data (Some (default UNTITLED_NAME (name d)))
                          (Some new_todos))), w1)
    /\ length new_todos
       = (length (default [] (todos d)) + length items)%nat
    /\ (forall i t,
          default [] (todos d) !! i = Some t ->
          PrioCommand.find_todo_by_identifier new_todos (Py.str (S i))
          = Some (i, t))
    /\ (forall k item,
          items !! k = Some item ->
          exists t,
            PrioCommand.find_todo_by_identifier new_todos
              (Py.str (S (length (default [] (todos d)) + k)))
            = Some ((length (default [] (todos d)) + k)%nat, t)
            /\ AddCommand.parse_priority_from_input item
               = (title t, default "" (priority t))
            /\ done t = Some false).
Proof.
  intros Hrun.
  destruct (add_run_Return _ _ Hrun)
    as (text & d & items & Hdisk & Hload & Hitems & Hw).
  rewrite (add_run_success _ _ _ _ Hdisk Hload Hitems Hw) in Hrun.
  injection Hrun as <-.
  exists text, d, items, (default [] (todos d) ++ map new_task items)%list.
  split; [exact Hdisk |]. split; [exact Hload |]. split; [exact Hitems |].
  split; [apply read_project_file_ok with (text := json_dump
            (Data (Some (default UNTITLED_NAME (name d)))
               (Some (default [] (todos d) ++ map new_task items)%list)));
          [reflexivity | apply json_load_dump] |].
  split; [now rewrite length_app, length_map |].
  split.
  - intros i t Hi. apply find_by_position.
    now apply lookup_app_l_Some.
  - intros k item Hk. exists (new_task item). split; [|split].
    + apply find_by_position.
      rewrite lookup_app_r by lia.
      replace (length (default [] (todos d)) + k
               - length (default [] (todos d)))%nat with k by lia.
      now rewrite list_lookup_fmap, Hk.
    + destruct (get_titles_input_cases w)
        as [(items' & Hi' & Hstrip) | (w' & Hex & _)]; [|congruence].
      assert (items' = items) as -> by congruence.
      rewrite Forall_forall in Hstrip.
      pose proof (Hstrip item (list_elem_of_lookup_2 _ _ _ Hk)) as Hs.
      unfold AddCommand.parse_priority_from_input, new_task.
      destruct (Py.re_search item); simpl; [reflexivity | now rewrite Hs].
    + unfold new_task. now destruct (Py.re_search item).
Qed.

Lemma add_keeps_positions_witness :
  exists text d items new_todos,
    disk (World ["todo"; "add"; "Run"]
            (Some (json_dump (Data (Some "Home")
                                (Some [Task (Some true) "Walk" None]))))
            None 0 [])
    = Some text /\ json_load text = Some d
    /\ items = ["Run"]
    /\ new_todos = [Task (Some true) "Walk" None;
                    Task (Some false) "Run" (Some "medium")]
    /\ PrioCommand.find_todo_by_identifier new_todos "2"
       = Some (1%nat, Task (Some false) "Run" (Some "medium")).
Proof.
  destruct (add_keeps_positions
              (World ["todo"; "add"; "Run"]
                 (Some (json_dump (Data (Some "Home")
                                     (Some [Task (Some true) "Walk" None]))))
                 None 0 [])
              (snd (AddCommand.run
                 (World ["todo"; "add"; "Run"]
                    (Some (json_dump (Data (Some "Home")
                                        (Some [Task (Some true) "Walk" None]))))
                    None 0 []))))
    as (text & d & items & new_todos & Hdisk & Hload & Hitems & Hread & _).
  { vm_compute. reflexivity. }
  exists text, d, items, new_todos.
  split; [exact Hdisk |]. split; [exact Hload |].
  assert (items = ["Run"]) as Hi by (vm_compute in Hitems; congruence).
  assert (new_todos = [Task (Some true) "Walk" None;
                       Task (Some false) "Run" (Some "medium")]) as Hn
    by (vm_compute in Hread; congruence).
  split; [exact Hi |]. split; [exact Hn |]. rewrite Hn. reflexivity.
Defined.

(** X15.  When the project file cannot be written, neither command ends
    normally and the file keeps its text.  A run that got as far as
    writing tried once, printed the error and ended with status 1. *)
Theorem write_failure_exits (w : world) (err : string) :
  write_error w = Some err ->
  (forall r w', AddCommand.run w = (r, w') ->
     exists code, r = Exit code /\ disk w' = disk w
       /\ (add_validated w ->
           code = 1%Z /\ writes w' = S (writes w)
           /\ stdout w'
              = (stdout w ++ [("Error writing to todos.json: " ++ err)%string])%list))
  /\ (forall r w', PrioCommand.run w = (r, w') ->
        exists code, r = Exit code /\ disk w' = disk w
          /\ (prio_validated w ->
              code = 1%Z /\ writes w' = S (writes w)
              /\ stdout w'
                 = (stdout w ++ [("Error writing to todos.json: " ++ err)%string])%list)).
Proof.
  intros Hw. split; intros r w' Hrun.
  - destruct (add_run_cases w)
      as [(text & d & items & Hdisk & Hload & Hitems & Heq)
         | (Hnot & code & w0 & Heq & Hu)].
    + rewrite Heq, bind_unfold, (update_project_failed _ _ _ Hw) in Hrun.
      injection Hrun as <- <-. exists 1%Z. now repeat split.
    + rewrite Heq in Hrun. injection Hrun as <- <-. exists code.
      split; [reflexivity |]. split; [apply Hu |]. intros Hv. now destruct Hnot.
  - destruct (prio_run_cases w)
      as [(text & d & task_id & new_priority & i & todo
           & Hdisk & Hload & Hparse & Hfind & Hp & Heq)
         | (Hnot & code & w0 & Heq & Hu)].
    + rewrite Heq, bind_unfold, (update_project_failed _ _ _ Hw) in Hrun.
      injection Hrun as <- <-. exists 1%Z. now repeat split.
    + rewrite Heq in Hrun. injection Hrun as <- <-. exists code.
      split; [reflexivity |]. split; [apply Hu |]. intros Hv. now destruct Hnot.
Qed.

Lemma write_failure_exits_witness :
  exists code,
    fst (AddCommand.run
           (World ["todo"; "add"; "Run"]
              (Some (json_dump (Data (Some "Home") (Some []))))
              (Some "denied") 0 []))
    = Exit code
    /\ disk (snd (AddCommand.run
                    (World ["todo"; "add"; "Run"]
                       (Some (json_dump (Data (Some "Home") (Some []))))
                       (Some "denied") 0 [])))
       = Some (json_dump (Data (Some "Home") (Some []))).
Proof.
  destruct (write_failure_exits
              (World ["todo"; "add"; "Run"]
                 (Some (json_dump (Data (Some "Home") (Some []))))
                 (Some "denied") 0 [])
              "denied" eq_refl) as [H _].
  destruct (H _ _ (surjective_pairing _)) as (code & Hr & Hd & _).
  exists code. split; [exact Hr | exact Hd].
Defined.

(** X16.  Without a project file [add] ends with status 0 and [prio] with
    status 1, each after its hint; [add] does not run again and creates
    nothing. *)
Theorem missing_project_file (w : world) :
  disk w = None ->
  AddCommand.run w
  = (Exit 0,
     World (argv w) None (write_error w) (writes w)
       (stdout w ++ ["No project found. Create one with: todo init"]))
  /\ fst (ask_create_project w) = Exit 0
  /\ PrioCommand.run w
     = (Exit 1,
        World (argv w) None (write_error w) (writes w)
          (stdout w ++ ["Error: Project file not found (todos.json)";
                        "Create one with: todo init"]))
  /\ fst (project_not_found w) = Exit 1.
Proof.
  intros H. rewrite add_run_eq, prio_run_eq, H. unfold print. simpl.
  rewrite H, <- app_assoc. repeat split.
Qed.

Lemma missing_project_file_witness :
  fst (AddCommand.run (World ["todo"; "add"; "Run"] None None 0 [])) = Exit 0
  /\ fst (PrioCommand.run (World ["todo"; "prio"; "1"; "low"] None None 0 []))
     = Exit 1.
Proof.
  split.
  - destruct (missing_project_file
                (World ["todo"; "add"; "Run"] None None 0 []) eq_refl)
      as (H & _). now rewrite H.
  - destruct (missing_project_file
                (World ["todo"; "prio"; "1"; "low"] None None 0 []) eq_refl)
      as (_ & _ & H & _). now rewrite H.
Defined.

End Composition.

(** ** Reading the project, and showing a priority *)

Section Reading.

Import Command.






Lemma level_cases (p : string) :
  p ∈ PRIORITY_LEVELS <-> p = "low" \/ p = "medium" \/ p = "high".
Proof.
  unfold PRIORITY_LEVELS. rewrite !elem_of_cons, elem_of_nil. tauto.
Qed.

Lemma eqb_neq_false (a b : string) : a <> b -> String.eqb a b = false.
Proof. apply String.eqb_neq. Qed.

(** X19.  The three levels are told apart by their symbol and by their icon, and
    a level [validate_priority] returns is shown as that level.  A
    priority that is none of the three levels in lower case (one in
    capitals, say, or one [add] stored unchecked) is shown with the
    symbol and the colour of low priority and an icon of its own, while
    sorting ranks it as medium. *)
Theorem priority_display_spec (Fore : fore) :
  (forall a b,
     a ∈ PRIORITY_LEVELS -> b ∈ PRIORITY_LEVELS ->
     (get_priority_symbol a = get_priority_symbol b -> a = b)
     /\ (get_priority_icon a = get_priority_icon b -> a = b)
     /\ (priority_rank a = priority_rank b -> a = b))
  /\ (forall priority,
        priority ∉ PRIORITY_LEVELS ->
        get_priority_symbol priority = get_priority_symbol "low"
        /\ get_priority_color Fore priority = get_priority_color Fore "low"
        /\ (forall level, level ∈ PRIORITY_LEVELS ->
              get_priority_icon priority <> get_priority_icon level)
        /\ priority_rank priority = priority_rank "medium")
  /\ (forall priority w validated,
        validate_priority priority w = (Return validated, w) ->
        get_priority_symbol validated
        = get_priority_symbol (Py.lower priority)
        /\ (get_priority_symbol validated = "!!!"
            <-> priority_rank validated = 0%nat)
        /\ (get_priority_symbol validated = "~~"
            <-> priority_rank validated = 1%nat)
        /\ (get_priority_symbol validated = "--"
            <-> priority_rank validated = 2%nat)).
Proof.
  split; [|split].
  - intros a b Ha Hb. apply level_cases in Ha, Hb.
    destruct Ha as [-> | [-> | ->]], Hb as [-> | [-> | ->]];
      repeat split; intros H; try reflexivity; vm_compute in H;
      discriminate H.
  - intros priority H. rewrite level_cases in H.
    assert (priority <> "low" /\ priority <> "medium" /\ priority <> "high")
      as (Hl & Hm & Hh) by tauto.
    unfold get_priority_symbol, get_priority_color, get_priority_icon,
      priority_rank.
    rewrite (eqb_neq_false _ _ Hl), (eqb_neq_false _ _ Hm),
      (eqb_neq_false _ _ Hh).
    split; [reflexivity |]. split; [reflexivity |]. split; [|reflexivity].
    intros level Hlevel. apply level_cases in Hlevel.
    destruct Hlevel as [-> | [-> | ->]]; discriminate.
  - intros priority w validated. rewrite validate_priority_eq.
    destruct (decide (Py.lower priority ∈ PRIORITY_LEVELS)) as [H|H].
    + rewrite (bool_decide_eq_true_2 _ H). intros [= <-].
      split; [reflexivity |]. apply level_cases in H.
      destruct H as [-> | [-> | ->]]; vm_compute;
        repeat split; intros; (reflexivity || discriminate).
    + rewrite (bool_decide_eq_false_2 _ H). discriminate.
Qed.

Lemma priority_display_spec_witness :
  get_priority_symbol "HIGH" = "--"
  /\ priority_rank "HIGH" = 1%nat
  /\ get_priority_symbol "high" = "!!!".
Proof.
  destruct (priority_display_spec (Fore "red" "yellow" "green"))
    as (_ & Hunknown & Hvalid).
  destruct (Hunknown "HIGH") as (Hs & _ & _ & Hr).
  { vm_compute. intros H.
    repeat (apply elem_of_cons in H as [H | H]; [discriminate H |]).
    now apply elem_of_nil in H. }
  destruct (Hvalid "HIGH" (World [] None None 0 []) "high" eq_refl)
    as (_ & Hhigh & _).
  split; [exact Hs |]. split; [exact Hr |]. now apply Hhigh.
Defined.

End Reading.
